(** * PestVid: funding requests, investments and the transaction ledger

    A shallow embedding of the crowdfunding back end:

    - [models/FundingRequest.js]  (schema and its [pre('save')] hook),
    - [models/Investment.js]      (schema and its [pre('save')] hook),
    - [models/Transaction.js]     (schema, unique index on [txHash]),
    - [routes/fundingRequests.js] (POST, PUT and DELETE handlers),
    - [routes/investments.js]     (POST and PUT [/:id/progress] handlers).

    A route handler is a function from the database (the four collections
    the handlers touch) and the request to a response and the database the
    handler leaves behind.  The handlers run their writes one after the
    other, so a handler that fails half-way returns the database with the
    writes it already made.

    Conventions of the model.
    - A JavaScript string is its sequence of UTF-16 code units
      ([JSString]); [js "..."] is the value of an ASCII literal.
    - A JavaScript [Number] holding an amount is an exact rational ([Q]).
      The rounding of IEEE doubles is not modelled: where the code adds or
      multiplies amounts the model has the exact sum or product, of which
      the stored double is the rounding.  Comparisons and copies of
      amounts are the same on both.
    - The [progress] of a progress update is the text [parseInt] reads:
      the body's string, or the decimal text of its number.
    - A [Date] is its number of milliseconds ([Z]).  Clock readings, the
      random part of a simulated transaction hash and the release of
      Mongoose the server runs on are inputs of the handler ([Env]).
    - Request bodies are typed: a body whose amount does not parse, or
      whose status or method string is outside the schema enum, is rejected
      by the handlers with status 400 before any read and is not
      represented.
    - The handlers are run one at a time (no interleaving of requests). *)

From Stdlib Require Import QArith ZArith NArith List String Ascii Bool Lia Lqa.
Import ListNotations.

Local Open Scope bool_scope.

(** ** Basic types *)

Definition ObjectId := N.
Definition Date := Z.

Bind Scope N_scope with ObjectId.
Bind Scope Z_scope with Date.

Definition Qltb (x y : Q) : bool := negb (Qle_bool y x).

(** ** JavaScript strings *)

(** A string value, as a list of UTF-16 code units. *)
Definition JSString := list N.

(** The value of an ASCII literal. *)
Definition js (s : string) : JSString :=
  map N_of_ascii (list_ascii_of_string s).

(** [s === t] on strings. *)
Fixpoint seqb (s t : JSString) : bool :=
  match s, t with
  | [], [] => true
  | c :: s', d :: t' => (c =? d)%N && seqb s' t'
  | _, _ => false
  end.

(** [WhiteSpace] and [LineTerminator] of ECMAScript: what [trim] strips
    and [parseInt] skips.  TAB, LF, VT, FF, CR, SP, NBSP, U+1680,
    U+2000..U+200A, U+2028, U+2029, U+202F, U+205F, U+3000, U+FEFF. *)
Definition is_space (c : N) : bool :=
  match c with
  | 9 | 10 | 11 | 12 | 13 | 32 | 160 | 5760
  | 8232 | 8233 | 8239 | 8287 | 12288 | 65279 => true
  | _ => (8192 <=? c) && (c <=? 8202)
  end%N.

Fixpoint dropWhile {A} (f : A -> bool) (l : list A) : list A :=
  match l with
  | [] => []
  | x :: l' => if f x then dropWhile f l' else l
  end.

(** [s.trim()] *)
Definition trim (s : JSString) : JSString :=
  rev (dropWhile is_space (rev (dropWhile is_space s))).

(** [s && s.trim() !== ''] for an optional body field. *)
Definition nonblank (s : option JSString) : bool :=
  match s with
  | None => false
  | Some s => negb (seqb (trim s) [])
  end.

(** [!s]: the field is absent or the empty string. *)
Definition falsy (s : option JSString) : bool :=
  match s with
  | None => true
  | Some s => seqb s []
  end.

(** [parseInt(s, 10)]: white space is skipped, then an optional sign, then
    the longest run of decimal digits is read; what follows the digits is
    ignored.  [None] is [NaN] (no digit where one is expected). *)
Definition digit (c : N) : option Z :=
  if (48 <=? c)%N && (c <=? 57)%N then Some (Z.of_N (c - 48)) else None.

Fixpoint digits (acc : Z) (s : JSString) : Z :=
  match s with
  | [] => acc
  | c :: s' =>
      match digit c with
      | Some d => digits (10 * acc + d) s'
      | None => acc
      end
  end.

Definition parseInt (s : JSString) : option Z :=
  let s := dropWhile is_space s in
  let '(negative, s) :=
    match s with
    | 45%N :: s' => (true, s')     (* - *)
    | 43%N :: s' => (false, s')    (* + *)
    | _ => (false, s)
    end in
  match s with
  | [] => None
  | c :: _ =>
      match digit c with
      | None => None
      | Some _ => Some (if negative then - digits 0 s else digits 0 s)%Z
      end
  end.

Inductive Role := farmer | buyer | investor | admin.

Definition Role_eqb (a b : Role) : bool :=
  match a, b with
  | farmer, farmer | buyer, buyer | investor, investor | admin, admin => true
  | _, _ => false
  end.

(** [req.user], as set by [authenticateToken]. *)
Module User.
Record t := mk { _id : ObjectId; role : Role }.
End User.

Inductive Method := organic | conventional | hydroponic | aquaponic | regenerative.

(** [models/Video.js]: the fields the funding routes read. *)
Module Video.
Record t := mk { cid : JSString; farmerWallet : ObjectId }.
End Video.

(** ** [models/FundingRequest.js] *)

(** An element of the embedded [investors] array. *)
Module InvestorEntry.
Record t := mk {
  investorId : ObjectId;
  amount : Q;
  txHash : JSString;
  investmentDate : Date
}.
End InvestorEntry.

(** An element of the embedded [updates] array.  The schema declares
    [id], [date] and [text], all three [required]; [id] is [None] when the
    object pushed carries no [id] property. *)
Module Update.
Record t := mk {
  id : option JSString;
  date : Date;
  text : JSString
}.
End Update.

Module FundingRequest.

Inductive Status := pending | partially_funded | funded | completed | cancelled.

Definition Status_eqb (a b : Status) : bool :=
  match a, b with
  | pending, pending | partially_funded, partially_funded
  | funded, funded | completed, completed | cancelled, cancelled => true
  | _, _ => false
  end.

Record t := mk {
  _id : ObjectId;
  farmerWallet : ObjectId;
  title : JSString;
  crop : JSString;
  acres : Q;
  amount : Q;
  method : Method;
  description : JSString;
  timeline : Z;
  roi : Q;
  investorShare : Q;
  cid : JSString;
  fundedAmount : Q;
  status : Status;
  createdAt : Date;
  investors : list InvestorEntry.t;
  updates : list Update.t
}.

Definition set_fundedAmount (v : Q) (d : t) : t :=
  mk (_id d) (farmerWallet d) (title d) (crop d) (acres d) (amount d)
     (method d) (description d) (timeline d) (roi d) (investorShare d)
     (cid d) v (status d) (createdAt d) (investors d) (updates d).

Definition set_status (v : Status) (d : t) : t :=
  mk (_id d) (farmerWallet d) (title d) (crop d) (acres d) (amount d)
     (method d) (description d) (timeline d) (roi d) (investorShare d)
     (cid d) (fundedAmount d) v (createdAt d) (investors d) (updates d).

Definition set_investors (v : list InvestorEntry.t) (d : t) : t :=
  mk (_id d) (farmerWallet d) (title d) (crop d) (acres d) (amount d)
     (method d) (description d) (timeline d) (roi d) (investorShare d)
     (cid d) (fundedAmount d) (status d) (createdAt d) v (updates d).

Definition set_updates (v : list Update.t) (d : t) : t :=
  mk (_id d) (farmerWallet d) (title d) (crop d) (acres d) (amount d)
     (method d) (description d) (timeline d) (roi d) (investorShare d)
     (cid d) (fundedAmount d) (status d) (createdAt d) (investors d) v.

(** [fundingRequestSchema.pre('save')], the part that follows the video
    lookup (the lookup fills [videoStorageType] and [videoFileHash], which
    no handler below reads):
<<
   if (this.fundedAmount > this.amount) { this.fundedAmount = this.amount; }
   if (this.fundedAmount >= this.amount) { this.status = 'funded'; }
   else if (this.fundedAmount > 0)       { this.status = 'partially_funded'; }
   else                                  { this.status = 'pending'; }
>> *)
Definition pre_save (this : t) : t :=
  let this :=
    if Qltb (amount this) (fundedAmount this)
    then set_fundedAmount (amount this) this
    else this in
  if Qle_bool (amount this) (fundedAmount this) then set_status funded this
  else if Qltb 0 (fundedAmount this) then set_status partially_funded this
  else set_status pending this.

(** Schema validation, run by [save()] before the hook, on every path of
    a new document and on every path loaded of a document read from the
    store: the [required] strings are not empty, the numbers are within
    their [min] and [max], the strings within their [maxlength]; an
    embedded contribution has an [amount] of at least 0; an embedded update
    has its [required] paths [id] and [text]. *)
Definition entry_valid (e : InvestorEntry.t) : bool :=
  Qle_bool 0 (InvestorEntry.amount e).

Definition update_valid (u : Update.t) : bool :=
  match Update.id u with
  | Some i => negb (seqb i [])
  | None => false
  end
  && negb (seqb (Update.text u) []).

Definition validate (d : t) : bool :=
  negb (seqb (title d) []) && (List.length (title d) <=? 100)%nat
  && negb (seqb (crop d) [])
  && Qle_bool (1 # 10) (acres d)
  && Qle_bool 1 (amount d)
  && negb (seqb (description d) [])
  && (List.length (description d) <=? 1000)%nat
  && (1 <=? timeline d)%Z && (timeline d <=? 36)%Z
  && Qle_bool 0 (roi d) && Qle_bool (roi d) 100
  && Qle_bool 0 (investorShare d) && Qle_bool (investorShare d) 100
  && negb (seqb (cid d) [])
  && Qle_bool 0 (fundedAmount d)
  && forallb entry_valid (investors d)
  && forallb update_valid (updates d).

End FundingRequest.

(** ** [models/Investment.js] *)

Module Investment.

Inductive Status := active | growing | harvested | cancelled.

Definition Status_eqb (a b : Status) : bool :=
  match a, b with
  | active, active | growing, growing
  | harvested, harvested | cancelled, cancelled => true
  | _, _ => false
  end.

(** The fields the [pre('save')] hook copies from the project in one
    [this.set({...})]; they are all set or all absent. *)
Record Snapshot := mkSnapshot {
  projectTitle : JSString;
  farmerWallet : ObjectId;
  crop : JSString;
  method : Method;
  description : JSString;
  acres : Q;
  timeline : Z;
  roi : Q;
  investorShare : Q;
  cid : JSString
}.

Record t := mk {
  _id : ObjectId;
  investorWallet : ObjectId;
  projectId : ObjectId;
  snapshot : option Snapshot;
  amount : Q;
  status : Status;
  progress : Z;
  investmentDate : Date;
  txHash : JSString;
  payoutAmount : option Q;
  payoutDate : option Date;
  payoutTxHash : option JSString;
  payoutNotified : bool
}.

Definition set_snapshot (v : option Snapshot) (d : t) : t :=
  mk (_id d) (investorWallet d) (projectId d) v (amount d) (status d)
     (progress d) (investmentDate d) (txHash d) (payoutAmount d)
     (payoutDate d) (payoutTxHash d) (payoutNotified d).

Definition set_status (v : Status) (d : t) : t :=
  mk (_id d) (investorWallet d) (projectId d) (snapshot d) (amount d) v
     (progress d) (investmentDate d) (txHash d) (payoutAmount d)
     (payoutDate d) (payoutTxHash d) (payoutNotified d).

Definition set_progress (v : Z) (d : t) : t :=
  mk (_id d) (investorWallet d) (projectId d) (snapshot d) (amount d)
     (status d) v (investmentDate d) (txHash d) (payoutAmount d)
     (payoutDate d) (payoutTxHash d) (payoutNotified d).

(** The four payout writes of the progress handler:
    [payoutAmount], [payoutDate], [payoutTxHash] and, last,
    [payoutNotified = true]. *)
Definition set_payout (a : Q) (when : Date) (h : JSString) (d : t) : t :=
  mk (_id d) (investorWallet d) (projectId d) (snapshot d) (amount d)
     (status d) (progress d) (investmentDate d) (txHash d) (Some a)
     (Some when) (Some h) true.

(** [investment.roi]: [undefined] when the hook found no project. *)
Definition roi_of (d : t) : option Q := option_map roi (snapshot d).

(** Schema validation: [amount] has [min: 0], [progress] has [min: 0] and
    [max: 100]. *)
Definition validate (d : t) : bool :=
  Qle_bool 0 (amount d) && (0 <=? progress d)%Z && (progress d <=? 100)%Z.

Definition farmerWallet_of (d : t) : option ObjectId :=
  option_map farmerWallet (snapshot d).

End Investment.

(** ** [models/Transaction.js] *)

Module Transaction.

Inductive Type_ := investment | payout | purchase | sale.

Definition Type_eqb (a b : Type_) : bool :=
  match a, b with
  | investment, investment | payout, payout
  | purchase, purchase | sale, sale => true
  | _, _ => false
  end.

Record t := mk {
  userId : ObjectId;
  txHash : JSString;
  type : Type_;
  amount : Q;
  projectId : option ObjectId;
  date : Date
}.

End Transaction.

(** ** [models/Notification.js] (message text omitted) *)

Module Notification.

Inductive Type_ := n_investment | n_funding | n_update | n_payout.

Inductive ItemType := FundingRequestItem | InvestmentItem.

Record t := mk {
  recipient : option ObjectId;
  global : bool;
  type : Type_;
  itemId : ObjectId;
  itemType : ItemType
}.

End Notification.

(** ** The database *)

Record DB := mkDB {
  videos : list Video.t;
  fundingRequests : list FundingRequest.t;
  investments : list Investment.t;
  transactions : list Transaction.t;
  notifications : list Notification.t;
  nextId : ObjectId   (* the next [ObjectId] the driver hands out *)
}.

Definition set_fundingRequests (v : list FundingRequest.t) (db : DB) : DB :=
  mkDB (videos db) v (investments db) (transactions db) (notifications db)
       (nextId db).

Definition set_investments (v : list Investment.t) (db : DB) : DB :=
  mkDB (videos db) (fundingRequests db) v (transactions db) (notifications db)
       (nextId db).

Definition set_transactions (v : list Transaction.t) (db : DB) : DB :=
  mkDB (videos db) (fundingRequests db) (investments db) v (notifications db)
       (nextId db).

Definition set_notifications (v : list Notification.t) (db : DB) : DB :=
  mkDB (videos db) (fundingRequests db) (investments db) (transactions db) v
       (nextId db).

Definition set_nextId (v : ObjectId) (db : DB) : DB :=
  mkDB (videos db) (fundingRequests db) (investments db) (transactions db)
       (notifications db) v.

Definition emptyDB (vs : list Video.t) : DB := mkDB vs [] [] [] [] 0%N.

(** Collection primitives, for a collection kept in insertion order. *)
Section Collection.

Context {A : Type} (key : A -> ObjectId).

(** [Model.findById(i)] *)
Fixpoint findById (i : ObjectId) (c : list A) : option A :=
  match c with
  | [] => None
  | x :: c' => if (key x =? i)%N then Some x else findById i c'
  end.

(** The write of [doc.save()] for a document read from the store:
    the stored document with the key of [d] becomes [d]. *)
Fixpoint replaceOne (d : A) (c : list A) : list A :=
  match c with
  | [] => []
  | x :: c' => if (key x =? key d)%N then d :: c' else x :: replaceOne d c'
  end.

(** [doc.deleteOne()] *)
Fixpoint deleteOne (i : ObjectId) (c : list A) : list A :=
  match c with
  | [] => []
  | x :: c' => if (key x =? i)%N then c' else x :: deleteOne i c'
  end.

(** [Model.countDocuments(filter)] *)
Definition countDocuments (f : A -> bool) (c : list A) : nat :=
  List.length (filter f c).

End Collection.

(** ** Environment of a request *)

(** The release of Mongoose the server runs on: 5.x, or 6.0 and later. *)
Inductive Mongoose := Mongoose5 | Mongoose6.

(** [now] is the clock reading of [new Date()] when the handler builds its
    documents, [later] the reading when the POST handler searches the
    [investors] array ([now <= later] on a real clock), [entropy] the
    timestamp-and-random suffix of a generated hash (hexadecimal digits),
    [mongoose] the release of the library. *)
Record Env := mkEnv {
  now : Date;
  later : Date;
  entropy : JSString;
  mongoose : Mongoose
}.

(** [generateSimulatedTxHash(prefix)] *)
Definition generateSimulatedTxHash (prefix : string) (env : Env) : JSString :=
  js prefix ++ js "_" ++ entropy env.

(** ** Responses *)

Inductive Reason :=
| MissingField            (* "Missing required field ..." *)
| InvalidNumericValues    (* "Invalid numeric values provided ..." *)
| InvalidAmount           (* "Invalid investment amount. ..." *)
| InvalidProgress         (* "Invalid progress value provided. ..." *)
| TerminalInvestment      (* "Cannot update progress for investment in terminal state ..." *)
| TerminalStatus          (* "Cannot change status from terminal state ..." *)
| AlreadyFunded           (* "Cannot cancel funding request: It has already received funding." *)
| NoUpdateData            (* "No update data provided (updateText or status)." *)
| ValidationError.        (* [err.name === 'ValidationError'] *)

Inductive Response :=
| Ok                      (* 200 *)
| Created                 (* 201 *)
| BadRequest (why : Reason)   (* 400 *)
| Forbidden               (* 403 *)
| NotFound                (* 404 *)
| Conflict                (* 409 *)
| ServerError.            (* 500 *)

(** Why a [save()] threw. *)
Inductive SaveError :=
| Invalid        (* a Mongoose [ValidationError] *)
| DuplicateKey.  (* E11000 from a unique index; not a [ValidationError] *)

(** What the handlers' [catch] blocks answer. *)
Definition caught (e : SaveError) : Response :=
  match e with
  | Invalid => BadRequest ValidationError
  | DuplicateKey => ServerError
  end.

(** ** Saving documents *)

(** [new FundingRequest(...).save()] / [request.save()]: validation, then
    the [pre('save')] hook, then the write. *)
Definition FundingRequest_insert (d : FundingRequest.t) (db : DB)
  : SaveError + (FundingRequest.t * DB) :=
  if FundingRequest.validate d then
    let d := FundingRequest.pre_save d in
    inr (d, set_nextId (N.succ (nextId db))
              (set_fundingRequests (fundingRequests db ++ [d]) db))
  else inl Invalid.

Definition FundingRequest_save (d : FundingRequest.t) (db : DB)
  : SaveError + (FundingRequest.t * DB) :=
  if FundingRequest.validate d then
    let d := FundingRequest.pre_save d in
    inr (d, set_fundingRequests
              (replaceOne FundingRequest._id d (fundingRequests db)) db)
  else inl Invalid.

(** [FundingRequest.findByIdAndUpdate(projectId,
       { $inc: { fundedAmount: a }, $push: { investors: e } },
       { new: true, runValidators: true })].
    A single update of the stored document; it does not go through
    [save()], so the [pre('save')] hook does not run.  The update
    validators see the pushed entry, whose [amount] is positive when the
    handler gets here. *)
Fixpoint findByIdAndUpdate (i : ObjectId) (a : Q) (e : InvestorEntry.t)
  (c : list FundingRequest.t)
  : option (FundingRequest.t * list FundingRequest.t) :=
  match c with
  | [] => None
  | x :: c' =>
      if (FundingRequest._id x =? i)%N then
        let x' :=
          FundingRequest.set_investors (FundingRequest.investors x ++ [e])
            (FundingRequest.set_fundedAmount
               (FundingRequest.fundedAmount x + a)%Q x) in
        Some (x', x' :: c')
      else
        match findByIdAndUpdate i a e c' with
        | Some (x', c'') => Some (x', x :: c'')
        | None => None
        end
  end.

(** [investmentSchema.pre('save')] for a new document: copy the project's
    terms when the project is found. *)
Definition snapshot_of (p : FundingRequest.t) : Investment.Snapshot :=
  Investment.mkSnapshot
    (FundingRequest.title p) (FundingRequest.farmerWallet p)
    (FundingRequest.crop p) (FundingRequest.method p)
    (FundingRequest.description p) (FundingRequest.acres p)
    (FundingRequest.timeline p) (FundingRequest.roi p)
    (FundingRequest.investorShare p) (FundingRequest.cid p).

Definition Investment_pre_save_new (db : DB) (this : Investment.t)
  : Investment.t :=
  match findById FundingRequest._id (Investment.projectId this)
          (fundingRequests db) with
  | Some project => Investment.set_snapshot (Some (snapshot_of project)) this
  | None => this
  end.

(** [newInvestment.save()].  The handler's document passes validation
    ([amount > 0], [progress = 0]). *)
Definition Investment_insert (d : Investment.t) (db : DB)
  : Investment.t * DB :=
  let d := Investment_pre_save_new db d in
  (d, set_nextId (N.succ (nextId db))
        (set_investments (investments db ++ [d]) db)).

(** [investment.save()] for a document read from the store: validation,
    then the write (the hook does nothing for a document that is not
    new). *)
Definition Investment_save (d : Investment.t) (db : DB) : SaveError + DB :=
  if Investment.validate d then
    inr (set_investments (replaceOne Investment._id d (investments db)) db)
  else inl Invalid.

(** [transaction.save()]: [amount] has [min: 0]; [txHash] has a unique
    index. *)
Definition hash_used (h : JSString) (txs : list Transaction.t) : bool :=
  existsb (fun t => seqb (Transaction.txHash t) h) txs.

Definition Transaction_insert (t : Transaction.t) (db : DB)
  : SaveError + DB :=
  if Qltb (Transaction.amount t) 0 then inl Invalid
  else if hash_used (Transaction.txHash t) (transactions db)
  then inl DuplicateKey
  else inr (set_transactions (transactions db ++ [t]) db).

(** [notification.save()] and [Notification.insertMany]. *)
Definition notify (ns : list Notification.t) (db : DB) : DB :=
  set_notifications (notifications db ++ ns) db.

(** ** Building the response for an investment

    Both handlers of [routes/investments.js] end with
<<
   await doc.populate('projectId', ...).populate(..., ...);
   const formatted = { ...,
     farmerName: doc.farmerWallet
       ? (doc.farmerWallet.name.split(' ')[0] || ...) : 'Unknown Farmer',
     ... };
>>
    and [PUT /api/funding-requests/:id] with the same chain of two
    [populate] calls on the saved request.  With Mongoose 5
    [doc.populate(...)] returns the document: the chain goes through, and
    populates nothing.  From Mongoose 6 on it returns a promise, which has
    no [populate]: the call throws a [TypeError]. *)
Definition chainedPopulate (env : Env) : bool :=
  match mongoose env with
  | Mongoose5 => true
  | Mongoose6 => false
  end.

(** Whether the response of an investment handler gets built.  After the
    chain, [doc.farmerWallet], when the snapshot is there, is the farmer's
    id, not a populated user: [doc.farmerWallet.name] is [undefined] and
    [.split] throws a [TypeError]. *)
Definition formatInvestment (env : Env) (doc : Investment.t) : bool :=
  chainedPopulate env
  && match Investment.snapshot doc with
     | None => true
     | Some _ => false
     end.

(** ** [routes/investments.js] *)

(** The predicate of [updatedFundingRequest.investors.find(...)]:
<<
   inv.investorId.equals(req.user._id) && inv.amount === parsedAmount &&
   (new Date() - new Date(inv.investmentDate) < 5000)
>> *)
Definition is_pushed_entry (user : User.t) (parsedAmount : Q) (env : Env)
  (inv : InvestorEntry.t) : bool :=
  (InvestorEntry.investorId inv =? User._id user)%N
  && Qeq_bool (InvestorEntry.amount inv) parsedAmount
  && (later env - InvestorEntry.investmentDate inv <? 5000)%Z.

(** [POST /api/investments] *)
Definition postInvestment (db : DB) (user : User.t) (projectId : ObjectId)
  (parsedAmount : Q) (env : Env) : Response * DB :=
  if negb (Role_eqb (User.role user) investor) then (Forbidden, db)
  else if Qle_bool parsedAmount 0 then (BadRequest InvalidAmount, db)
  else
    (* 1. find and update the funding request *)
    let pushed :=
      InvestorEntry.mk (User._id user) parsedAmount
        (generateSimulatedTxHash "sim_invest" env) (now env) in
    match findByIdAndUpdate projectId parsedAmount pushed
            (fundingRequests db) with
    | None => (NotFound, db)
    | Some (updatedFundingRequest, frs) =>
        let db := set_fundingRequests frs db in
        (* 2. create the investment document *)
        match find (is_pushed_entry user parsedAmount env)
                (FundingRequest.investors updatedFundingRequest) with
        | None => (ServerError, db)
        | Some investorEntry =>
            let newInvestment :=
              Investment.mk (nextId db) (User._id user)
                (FundingRequest._id updatedFundingRequest) None parsedAmount
                Investment.active 0 (InvestorEntry.investmentDate investorEntry)
                (InvestorEntry.txHash investorEntry) None None None false in
            let (savedInvestment, db) := Investment_insert newInvestment db in
            (* 3. create the transaction record *)
            let transaction :=
              Transaction.mk (User._id user) (Investment.txHash savedInvestment)
                Transaction.investment (Investment.amount savedInvestment)
                (Some (Investment.projectId savedInvestment))
                (Investment.investmentDate savedInvestment) in
            match Transaction_insert transaction db with
            | inl e => (caught e, db)
            | inr db =>
                (* 4. the notification to the farmer: its message reads
                   [req.user.name], and [req.user] is the token's payload,
                   [_id] and [role]; the [TypeError] is caught and logged
                   and no notification is stored *)
                (* 5. the response; an exception here is caught by the
                   handler's [catch] and answered 500 *)
                if formatInvestment env savedInvestment
                then (Created, db)
                else (ServerError, db)
            end
        end
    end.

(** The status transitions of [PUT /api/investments/:id/progress], from
    [investment.progress = parsedProgress] to the end of the
    [if / else if / else if] chain.  [project] is the populated
    [investment.projectId] ([None] when the project no longer exists).
    The result is the error thrown by [payoutTransaction.save()], or the
    document in memory, the database and [payoutTriggered]. *)
Definition applyProgress (db : DB) (project : option FundingRequest.t)
  (investment : Investment.t) (env : Env)
  : SaveError + (Investment.t * DB * bool) :=
  if (100 <=? Investment.progress investment)%Z
     && negb (Investment.Status_eqb (Investment.status investment)
                Investment.harvested)
  then
    let investment := Investment.set_status Investment.harvested investment in
    if negb (Investment.payoutNotified investment) then
      match Investment.roi_of investment with
      | None =>
          (* [amount * (undefined / 100)] is [NaN]: the transaction has no
             valid [amount] *)
          inl Invalid
      | Some roi =>
          let calculatedPayoutAmount :=
            (Investment.amount investment * (roi / 100))%Q in
          let payoutTxHash := generateSimulatedTxHash "sim_payout" env in
          let payoutTransaction :=
            Transaction.mk (Investment.investorWallet investment) payoutTxHash
              Transaction.payout calculatedPayoutAmount
              (option_map FundingRequest._id project) (now env) in
          match Transaction_insert payoutTransaction db with
          | inl e => inl e
          | inr db =>
              let db :=
                notify [Notification.mk
                          (Some (Investment.investorWallet investment)) false
                          Notification.n_payout (Investment._id investment)
                          Notification.InvestmentItem;
                        Notification.mk
                          (Investment.farmerWallet_of investment) false
                          Notification.n_payout (Investment._id investment)
                          Notification.InvestmentItem] db in
              inr (Investment.set_payout calculatedPayoutAmount (now env)
                     payoutTxHash investment, db, true)
          end
      end
    else inr (investment, db, false)
  else if (0 <? Investment.progress investment)%Z
          && Investment.Status_eqb (Investment.status investment)
               Investment.active
  then inr (Investment.set_status Investment.growing investment, db, false)
  else if (Investment.progress investment =? 0)%Z
          && negb (Investment.Status_eqb (Investment.status investment)
                     Investment.active)
          && negb (Investment.Status_eqb (Investment.status investment)
                     Investment.harvested)
          && negb (Investment.Status_eqb (Investment.status investment)
                     Investment.cancelled)
  then
    if negb (Investment.Status_eqb (Investment.status investment)
               Investment.growing)
    then inr (Investment.set_status Investment.active investment, db, false)
    else inr (investment, db, false)
  else inr (investment, db, false).

(** [Investment.find({ projectId }).distinct('investorWallet')] *)
Definition investorsInProject (projectId : ObjectId) (db : DB)
  : list ObjectId :=
  nodup N.eq_dec
    (map Investment.investorWallet
       (filter (fun i => (Investment.projectId i =? projectId)%N)
          (investments db))).

Definition updateNotifications (projectId : ObjectId) (db : DB)
  : list Notification.t :=
  map (fun investorId =>
         Notification.mk (Some investorId) false Notification.n_update
           projectId Notification.FundingRequestItem)
      (investorsInProject projectId db).

(** The optional update text of the progress handler: the text goes to the
    project's [updates], as an object with [_id], [date] and [text] (and no
    [id]). *)
Definition addUpdateText (db : DB) (project : option FundingRequest.t)
  (updateText : option JSString) (env : Env) : SaveError + DB :=
  match project with
  | Some p =>
      if nonblank updateText then
        match findById FundingRequest._id (FundingRequest._id p)
                (fundingRequests db) with
        | Some fundingRequestToUpdate =>
            let newUpdate :=
              Update.mk None (now env)
                (trim (match updateText with Some s => s | None => [] end)) in
            match FundingRequest_save
                    (FundingRequest.set_updates
                       (FundingRequest.updates fundingRequestToUpdate
                        ++ [newUpdate])
                       fundingRequestToUpdate) db with
            | inl e => inl e
            | inr (saved, db) =>
                inr (notify (updateNotifications (FundingRequest._id saved) db)
                       db)
            end
        | None => inr db
        end
      else inr db
  | None => inr db
  end.

(** The post-save check: when every investment of the project is
    [harvested], the project is marked [completed] and saved. *)
Definition checkProjectCompleted (db : DB) (projectId : ObjectId)
  : SaveError + DB :=
  let totalInvestmentsInProject :=
    countDocuments (fun i => (Investment.projectId i =? projectId)%N)
      (investments db) in
  let harvestedInvestmentsInProject :=
    countDocuments
      (fun i => (Investment.projectId i =? projectId)%N
                && Investment.Status_eqb (Investment.status i)
                     Investment.harvested)
      (investments db) in
  if (0 <? totalInvestmentsInProject)%nat
     && (totalInvestmentsInProject =? harvestedInvestmentsInProject)%nat
  then
    match findById FundingRequest._id projectId (fundingRequests db) with
    | Some fundingRequest =>
        if negb (FundingRequest.Status_eqb (FundingRequest.status fundingRequest)
                   FundingRequest.completed)
        then
          match FundingRequest_save
                  (FundingRequest.set_status FundingRequest.completed
                     fundingRequest) db with
          | inl e => inl e
          | inr (saved, db) =>
              inr (notify [Notification.mk
                             (Some (FundingRequest.farmerWallet saved)) false
                             Notification.n_update (FundingRequest._id saved)
                             Notification.FundingRequestItem] db)
          end
        else inr db
    | None => inr db
    end
  else inr db.

(** The handler's [try] block, for a [parsedProgress] within 0..100. *)
Definition putProgress_try (db : DB) (investmentId : ObjectId)
  (parsedProgress : Z) (updateText : option JSString) (env : Env)
  : Response * DB :=
  match findById Investment._id investmentId (investments db) with
  | None => (NotFound, db)
  | Some investment =>
      let project :=
        findById FundingRequest._id (Investment.projectId investment)
          (fundingRequests db) in
      let terminal :=
        Investment.Status_eqb (Investment.status investment)
          Investment.harvested
        || Investment.Status_eqb (Investment.status investment)
             Investment.cancelled in
      if terminal
         && ((parsedProgress <? 100)%Z
             || Investment.Status_eqb (Investment.status investment)
                  Investment.cancelled)
      then (BadRequest TerminalInvestment, db)
      else
        let investment := Investment.set_progress parsedProgress investment in
        match applyProgress db project investment env with
        | inl e => (caught e, db)
        | inr (investment, db, payoutTriggered) =>
            match addUpdateText db project updateText env with
            | inl e => (caught e, db)
            | inr db =>
                match Investment_save investment db with
                | inl e => (caught e, db)
                | inr db =>
                    match
                      match project with
                      | Some p =>
                          if payoutTriggered
                             && Investment.Status_eqb
                                  (Investment.status investment)
                                  Investment.harvested
                          then checkProjectCompleted db (FundingRequest._id p)
                          else inr db
                      | None => inr db
                      end
                    with
                    | inl e => (caught e, db)
                    | inr db =>
                        (* the response; an exception here is caught by
                           the handler's [catch] and answered 500 *)
                        if formatInvestment env investment
                        then (Ok, db)
                        else (ServerError, db)
                    end
                end
            end
        end
  end.

(** [PUT /api/investments/:id/progress], body [{ progress, updateText }]:
<<
   const parsedProgress = parseInt(progress, 10);
   if (isNaN(parsedProgress) || parsedProgress < 0 || parsedProgress > 100)
     return res.status(400)...
>> *)
Definition putProgress (db : DB) (user : User.t) (investmentId : ObjectId)
  (progress : JSString) (updateText : option JSString) (env : Env)
  : Response * DB :=
  match parseInt progress with
  | None => (BadRequest InvalidProgress, db)
  | Some parsedProgress =>
      if (parsedProgress <? 0)%Z || (100 <? parsedProgress)%Z
      then (BadRequest InvalidProgress, db)
      else putProgress_try db investmentId parsedProgress updateText env
  end.

(** ** [routes/fundingRequests.js] *)

(** The body of [POST /api/funding-requests], numbers parsed. *)
Record Terms := mkTerms {
  t_title : JSString;
  t_crop : JSString;
  t_acres : Q;
  t_amount : Q;
  t_method : Method;
  t_cid : JSString;
  t_description : JSString;
  t_timeline : Z;
  t_roi : Q;
  t_investorShare : Q
}.

(** The statuses of the "already used in an active request" query
    ([pending], [partially_funded], [funded]; the query's fourth value,
    ['growing'], is not a status of this schema). *)
Definition is_active_request (cid : JSString) (r : FundingRequest.t) : bool :=
  seqb (FundingRequest.cid r) cid
  && match FundingRequest.status r with
     | FundingRequest.pending | FundingRequest.partially_funded
     | FundingRequest.funded => true
     | _ => false
     end.

(** [POST /api/funding-requests] *)
Definition postFundingRequest (db : DB) (user : User.t) (body : Terms)
  (env : Env) : Response * DB :=
  if negb (Role_eqb (User.role user) farmer) then (Forbidden, db)
  else if seqb (trim (t_title body)) []
          || seqb (trim (t_crop body)) []
          || seqb (trim (t_cid body)) []
          || seqb (trim (t_description body)) []
  then (BadRequest MissingField, db)
  else if Qle_bool (t_acres body) 0 || Qle_bool (t_amount body) 0
          || (t_timeline body <=? 0)%Z
          || Qltb (t_roi body) 0 || Qltb 100 (t_roi body)
          || Qltb (t_investorShare body) 0 || Qltb 100 (t_investorShare body)
  then (BadRequest InvalidNumericValues, db)
  else
    match find (fun v => seqb (Video.cid v) (t_cid body)
                         && (Video.farmerWallet v =? User._id user)%N)
            (videos db) with
    | None => (NotFound, db)
    | Some video =>
        match find (is_active_request (t_cid body)) (fundingRequests db) with
        | Some _ => (Conflict, db)
        | None =>
            let newRequest :=
              FundingRequest.mk (nextId db) (User._id user)
                (trim (t_title body)) (trim (t_crop body)) (t_acres body)
                (t_amount body) (t_method body) (trim (t_description body))
                (t_timeline body) (t_roi body) (t_investorShare body)
                (Video.cid video) 0 FundingRequest.pending (now env) [] [] in
            match FundingRequest_insert newRequest db with
            | inl e => (caught e, db)
            | inr (savedRequest, db) =>
                (Created,
                 notify [Notification.mk None true Notification.n_funding
                           (FundingRequest._id savedRequest)
                           Notification.FundingRequestItem] db)
            end
        end
    end.

(** [PUT /api/funding-requests/:id], body [{ updateText, status }].  After
    the save the handler populates the saved request with a chain of two
    [populate] calls and answers 200; an exception there is caught by the
    handler's [catch] and answered 500. *)
Definition putFundingRequest (db : DB) (user : User.t) (requestId : ObjectId)
  (updateText : option JSString) (status : option FundingRequest.Status)
  (env : Env) : Response * DB :=
  if falsy updateText
     && match status with None => true | Some _ => false end
  then (BadRequest NoUpdateData, db)
  else
    match findById FundingRequest._id requestId (fundingRequests db) with
    | None => (NotFound, db)
    | Some request =>
        if negb (FundingRequest.farmerWallet request =? User._id user)%N
        then (Forbidden, db)
        else
          (* 1. push the update and notify the project's investors *)
          let '(request, db) :=
            if nonblank updateText then
              let newUpdate :=
                Update.mk None (now env)
                  (trim (match updateText with Some s => s | None => [] end)) in
              (FundingRequest.set_updates
                 (FundingRequest.updates request ++ [newUpdate]) request,
               notify (updateNotifications requestId db) db)
            else (request, db) in
          (* 2. the status *)
          let terminal :=
            FundingRequest.Status_eqb (FundingRequest.status request)
              FundingRequest.cancelled
            || FundingRequest.Status_eqb (FundingRequest.status request)
                 FundingRequest.completed in
          match status with
          | Some s =>
              if terminal
                 && negb (FundingRequest.Status_eqb s
                            (FundingRequest.status request))
              then (BadRequest TerminalStatus, db)
              else
                match FundingRequest_save
                        (FundingRequest.set_status s request) db with
                | inl e => (caught e, db)
                | inr (_, db) =>
                    if chainedPopulate env then (Ok, db) else (ServerError, db)
                end
          | None =>
              match FundingRequest_save request db with
              | inl e => (caught e, db)
              | inr (_, db) =>
                  if chainedPopulate env then (Ok, db) else (ServerError, db)
              end
          end
    end.

(** [DELETE /api/funding-requests/:id] *)
Definition deleteFundingRequest (db : DB) (user : User.t)
  (requestId : ObjectId) : Response * DB :=
  match findById FundingRequest._id requestId (fundingRequests db) with
  | None => (NotFound, db)
  | Some request =>
      if negb (FundingRequest.farmerWallet request =? User._id user)%N
      then (Forbidden, db)
      else if Qltb 0 (FundingRequest.fundedAmount request)
      then (BadRequest AlreadyFunded, db)
      else (Ok, set_fundingRequests
                  (deleteOne FundingRequest._id requestId (fundingRequests db))
                  db)
  end.

(** ** Runs of the back end *)

Inductive Request :=
| POST_fundingRequest (user : User.t) (body : Terms) (env : Env)
| PUT_fundingRequest (user : User.t) (requestId : ObjectId)
    (updateText : option JSString) (status : option FundingRequest.Status)
    (env : Env)
| DELETE_fundingRequest (user : User.t) (requestId : ObjectId)
| POST_investment (user : User.t) (projectId : ObjectId) (amount : Q)
    (env : Env)
| PUT_progress (user : User.t) (investmentId : ObjectId)
    (progress : JSString) (updateText : option JSString) (env : Env).

Definition handle (db : DB) (r : Request) : Response * DB :=
  match r with
  | POST_fundingRequest u b e => postFundingRequest db u b e
  | PUT_fundingRequest u i t s e => putFundingRequest db u i t s e
  | DELETE_fundingRequest u i => deleteFundingRequest db u i
  | POST_investment u p a e => postInvestment db u p a e
  | PUT_progress u i p t e => putProgress db u i p t e
  end.

(** The database after a sequence of requests, and the responses given. *)
Fixpoint run (db : DB) (rs : list Request) : list Response * DB :=
  match rs with
  | [] => ([], db)
  | r :: rs' =>
      let (resp, db') := handle db r in
      let (resps, db'') := run db' rs' in
      (resp :: resps, db'')
  end.

Definition reachable (db : DB) : Prop :=
  exists vs rs, snd (run (emptyDB vs) rs) = db.

(** ** Derived quantities and a worked scenario *)

(** What [findByIdAndUpdate] writes. *)
Definition invested (a : Q) (e : InvestorEntry.t) (p : FundingRequest.t)
  : FundingRequest.t :=
  FundingRequest.set_investors (FundingRequest.investors p ++ [e])
    (FundingRequest.set_fundedAmount (FundingRequest.fundedAmount p + a)%Q p).

(** The entry [POST /api/investments] pushes. *)
Definition pushedEntry (user : User.t) (a : Q) (env : Env) : InvestorEntry.t :=
  InvestorEntry.mk (User._id user) a
    (generateSimulatedTxHash "sim_invest" env) (now env).

(** Sum of the amounts of the embedded contributions. *)
Definition contributed (p : FundingRequest.t) : Q :=
  fold_right Qplus 0 (map InvestorEntry.amount (FundingRequest.investors p)).

(** The "payout" ledger entries carrying hash [h]. *)
Definition payoutEntries (h : JSString) (db : DB) : list Transaction.t :=
  filter (fun t => Transaction.Type_eqb (Transaction.type t) Transaction.payout
                   && seqb (Transaction.txHash t) h)
    (transactions db).

(** The record as the progress handler stores it at harvest. *)
Definition harvestedRecord (inv : Investment.t) (roi : Q) (env : Env)
  : Investment.t :=
  Investment.set_payout (Investment.amount inv * (roi / 100))%Q (now env)
    (generateSimulatedTxHash "sim_payout" env)
    (Investment.set_status Investment.harvested
       (Investment.set_progress 100 inv)).

(** A farmer with one video, two investors, and a request for 50 units at
    15% ROI: the scenario of the specification's section 8. *)
Module Scenario.

Definition farmerUser : User.t := User.mk 1%N farmer.
Definition alice : User.t := User.mk 2%N investor.
Definition bob : User.t := User.mk 3%N investor.

Definition vs : list Video.t := [Video.mk (js "cid1") 1%N].

Definition wheat : Terms :=
  mkTerms (js "Organic Wheat Expansion") (js "Wheat") 10 50 organic
    (js "cid1") (js "Expand organic wheat production") 6%Z 15 20.

(** A request handled at clock reading [t], with [s] as the random part of
    its hashes; the release of Mongoose has no part in what is stored. *)
Definition at_ (t : Z) (s : string) : Env := mkEnv t t (js s) Mongoose6.

Arguments at_ t%_Z s%_string.

Definition create : Request := POST_fundingRequest farmerUser wheat (at_ 0 "a").

(** The request as stored by [create]; its [_id] is 0. *)
Definition wheatRequest : FundingRequest.t :=
  FundingRequest.mk 0%N 1%N (js "Organic Wheat Expansion") (js "Wheat") 10 50
    organic (js "Expand organic wheat production") 6%Z 15 20 (js "cid1") 0
    FundingRequest.pending 0%Z [] [].

Definition db_created : DB := snd (run (emptyDB vs) [create]).

(** Alice funds the whole request and her investment is harvested. *)
Definition db_harvested : DB :=
  snd (run (emptyDB vs)
         [create;
          POST_investment alice 0%N 50 (at_ 1000 "b");
          PUT_progress alice 1%N (js "100") None (at_ 2000 "c")]).

(** Alice invests 60 in the 50-unit request; the farmer then saves the
    request (here: sets its status). *)
Definition db_overfunded : DB :=
  snd (run (emptyDB vs) [create; POST_investment alice 0 60 (at_ 1000 "b")]).

Definition db_overfunded_saved : DB :=
  snd (run (emptyDB vs)
         [create;
          POST_investment alice 0 60 (at_ 1000 "b");
          PUT_fundingRequest farmerUser 0 None (Some FundingRequest.funded)
            (at_ 2000 "c")]).

(** Alice invests 30 in the 50-unit request. *)
Definition db_partial : DB :=
  snd (run (emptyDB vs) [create; POST_investment alice 0 30 (at_ 1000 "b")]).

(** Alice invests 10 three times: one second and five and a half seconds
    after the first. *)
Definition three_investments : list Request :=
  [create;
   POST_investment alice 0 10 (at_ 1000 "b");
   POST_investment alice 0 10 (at_ 2000 "c");
   POST_investment alice 0 10 (at_ 6500 "d")].

(** Alice funds the whole request; her record is [active]. *)
Definition funded_by_alice : list Request :=
  [create; POST_investment alice 0 50 (at_ 1000 "b")].

Definition db_invested : DB := snd (run (emptyDB vs) funded_by_alice).

Definition project (db : DB) : option FundingRequest.t :=
  findById FundingRequest._id 0%N (fundingRequests db).

End Scenario.


(** ** Invariant of the documents the handlers store

    A stored request carries one of the three statuses the save hook
    derives and passes the validation of its schema.  A stored investment
    carries the
    snapshot of its project and a non-negative amount, is never
    [cancelled], and is [harvested] exactly when its payout has been
    recorded: the flag is set, the payout fields are filled and the ledger
    holds the "payout" entry with the record's payout hash.  The hashes of
    the ledger are pairwise distinct. *)

Definition derived_status (s : FundingRequest.Status) : Prop :=
  s = FundingRequest.funded \/ s = FundingRequest.partially_funded
  \/ s = FundingRequest.pending.

Definition frOK (p : FundingRequest.t) : Prop :=
  derived_status (FundingRequest.status p)
  /\ FundingRequest.validate p = true.

Definition paidOut (txs : list Transaction.t) (i : Investment.t) : Prop :=
  Investment.payoutNotified i = true
  /\ exists h roi,
       Investment.payoutTxHash i = Some h
       /\ Investment.roi_of i = Some roi
       /\ Investment.payoutAmount i
          = Some (Investment.amount i * (roi / 100))%Q
       /\ exists t,
            In t txs /\ Transaction.txHash t = h
            /\ Transaction.type t = Transaction.payout.

Definition invOK (txs : list Transaction.t) (i : Investment.t) : Prop :=
  (exists roi, Investment.roi_of i = Some roi /\ Qle_bool 0 roi = true)
  /\ Qle_bool 0 (Investment.amount i) = true
  /\ match Investment.status i with
     | Investment.harvested => paidOut txs i
     | Investment.cancelled => False
     | _ => Investment.payoutNotified i = false
     end.

Definition Inv (db : DB) : Prop :=
  Forall frOK (fundingRequests db)
  /\ Forall (invOK (transactions db)) (investments db)
  /\ NoDup (map Transaction.txHash (transactions db)).

(** ** Soundness of the store

    What the handlers keep beside [Inv].  A stored request has a funded
    amount that is 0 while it has no contribution and positive once it has
    one; a requested amount of at least 1 and an ROI of at most 100; and a
    video of its farmer as evidence.  No two stored
    requests share a video.  An investment record's project is in the
    store, has a contribution, and has the terms of the record's snapshot.
    A ledger entry has a non-negative amount, and an "investment" entry
    has a record with its hash, amount, investor and project. *)

Definition pledged (vs : list Video.t) (p : FundingRequest.t) : Prop :=
  exists v,
    In v vs /\ Video.cid v = FundingRequest.cid p
    /\ Video.farmerWallet v = FundingRequest.farmerWallet p.

Definition frSound (vs : list Video.t) (p : FundingRequest.t) : Prop :=
  (0 <= FundingRequest.fundedAmount p)%Q
  /\ (FundingRequest.investors p = [] -> FundingRequest.fundedAmount p == 0)
  /\ (FundingRequest.investors p <> [] -> (0 < FundingRequest.fundedAmount p)%Q)
  /\ (1 <= FundingRequest.amount p)%Q
  /\ (FundingRequest.roi p <= 100)%Q
  /\ pledged vs p.

Definition recordSound (frs : list FundingRequest.t) (i : Investment.t)
  : Prop :=
  exists p,
    findById FundingRequest._id (Investment.projectId i) frs = Some p
    /\ Investment.snapshot i = Some (snapshot_of p)
    /\ FundingRequest.investors p <> [].

Definition entrySound (invs : list Investment.t) (t : Transaction.t) : Prop :=
  (0 <= Transaction.amount t)%Q
  /\ (Transaction.type t = Transaction.investment ->
      exists i,
        In i invs
        /\ Investment.txHash i = Transaction.txHash t
        /\ Investment.amount i = Transaction.amount t
        /\ Investment.investorWallet i = Transaction.userId t
        /\ Transaction.projectId t = Some (Investment.projectId i)).

Definition Sound (db : DB) : Prop :=
  Forall (frSound (videos db)) (fundingRequests db)
  /\ NoDup (map FundingRequest.cid (fundingRequests db))
  /\ Forall (recordSound (fundingRequests db)) (investments db)
  /\ Forall (entrySound (investments db)) (transactions db).

(** The order of the statuses of an investment. *)
Definition rank (s : Investment.Status) : nat :=
  match s with
  | Investment.active => 0
  | Investment.growing => 1
  | Investment.harvested => 2
  | Investment.cancelled => 3
  end.

(** How a stored record may differ from an earlier version of itself. *)
Definition evolves (i i' : Investment.t) : Prop :=
  Investment._id i' = Investment._id i
  /\ Investment.investorWallet i' = Investment.investorWallet i
  /\ Investment.projectId i' = Investment.projectId i
  /\ Investment.snapshot i' = Investment.snapshot i
  /\ Investment.amount i' = Investment.amount i
  /\ Investment.investmentDate i' = Investment.investmentDate i
  /\ Investment.txHash i' = Investment.txHash i
  /\ (rank (Investment.status i) <= rank (Investment.status i'))%nat
  /\ (Investment.payoutNotified i = true -> Investment.payoutNotified i' = true)
  /\ (Investment.status i = Investment.cancelled -> i' = i)
  /\ (Investment.status i = Investment.harvested ->
      Investment.progress i = 100%Z -> i' = i).

(** * Properties *)

(** ** The collection primitives *)

Section CollectionFacts.

Context {A : Type} (key : A -> ObjectId).

Lemma findById_key (i : ObjectId) (c : list A) (x : A) :
  findById key i c = Some x -> key x = i.
Proof.
  induction c as [|y c IH]; simpl; [discriminate|].
  destruct (key y =? i)%N eqn:E.
  - intros [= <-]. now apply N.eqb_eq.
  - exact IH.
Qed.

Lemma findById_In (i : ObjectId) (c : list A) (x : A) :
  findById key i c = Some x -> In x c.
Proof.
  induction c as [|y c IH]; simpl; [discriminate|].
  destruct (key y =? i)%N.
  - intros [= <-]. now left.
  - intros H. right. now apply IH.
Qed.

Lemma findById_replaceOne (d : A) (c : list A) (x : A) :
  findById key (key d) c = Some x ->
  findById key (key d) (replaceOne key d c) = Some d.
Proof.
  induction c as [|y c IH]; simpl; [discriminate|].
  destruct (key y =? key d)%N eqn:E; simpl.
  - now rewrite N.eqb_refl.
  - rewrite E. exact IH.
Qed.

Lemma replaceOne_found (d : A) (c : list A) :
  findById key (key d) c = Some d -> replaceOne key d c = c.
Proof.
  induction c as [|y c IH]; simpl; [reflexivity|].
  destruct (key y =? key d)%N.
  - now intros [= ->].
  - intros H. now rewrite IH.
Qed.

Lemma Forall_replaceOne (P : A -> Prop) (d : A) (c : list A) :
  P d -> Forall P c -> Forall P (replaceOne key d c).
Proof.
  intros Hd. induction 1 as [|y c Hy Hc IH]; simpl; [constructor|].
  destruct (key y =? key d)%N; constructor; auto.
Qed.

Lemma Forall_deleteOne (P : A -> Prop) (i : ObjectId) (c : list A) :
  Forall P c -> Forall P (deleteOne key i c).
Proof.
  induction 1 as [|y c Hy Hc IH]; simpl; [constructor|].
  destruct (key y =? i)%N; [assumption|constructor; auto].
Qed.

End CollectionFacts.

Lemma findByIdAndUpdate_found i a e c p :
  findById FundingRequest._id i c = Some p ->
  exists c',
    findByIdAndUpdate i a e c = Some (invested a e p, c')
    /\ findById FundingRequest._id i c' = Some (invested a e p).
Proof.
  induction c as [|x c IH]; simpl; [discriminate|].
  destruct (FundingRequest._id x =? i)%N eqn:E.
  - intros [= ->]. eexists; split; [reflexivity|].
    simpl. now rewrite E.
  - intros H. destruct (IH H) as (c' & -> & Hc').
    eexists; split; [reflexivity|]. simpl. now rewrite E.
Qed.

Lemma findByIdAndUpdate_missing i a e c :
  findById FundingRequest._id i c = None ->
  findByIdAndUpdate i a e c = None.
Proof.
  induction c as [|x c IH]; simpl; [reflexivity|].
  destruct (FundingRequest._id x =? i)%N; [discriminate|].
  intros H. now rewrite IH.
Qed.

(** ** Strings and responses *)

Lemma seqb_spec s t : reflect (s = t) (seqb s t).
Proof.
  revert t. induction s as [|c s IH]; intros [|d t]; simpl;
    try (constructor; congruence).
  destruct (N.eqb_spec c d) as [->|Hcd]; simpl.
  - destruct (IH t) as [->|Hst]; constructor; congruence.
  - constructor. congruence.
Qed.

Lemma seqb_refl s : seqb s s = true.
Proof. now destruct (seqb_spec s s). Qed.

(** The response of an investment handler does not get built for a
    document that carries its project's snapshot, on either release. *)
Lemma formatInvestment_snapshot env doc snap :
  Investment.snapshot doc = Some snap -> formatInvestment env doc = false.
Proof. unfold formatInvestment. intros ->. apply andb_false_r. Qed.

(** ** [POST /api/investments], outcome by outcome

    Before the project update (403, 400, 404) nothing is written.  Once
    the update is made it is never undone, and the call is answered 500:
    when the pushed entry is not found again, with nothing more written;
    when the ledger refuses the entry, with the record written; and when
    every write was made, because the response does not get built.  No
    call is answered 201, and no notification is stored. *)
Lemma postInvestment_outcomes db user projectId a env :
  let (resp, db') := postInvestment db user projectId a env in
  match resp with
  | Created => False
  | ServerError =>
      exists p,
        findById FundingRequest._id projectId (fundingRequests db) = Some p
        /\ findById FundingRequest._id projectId (fundingRequests db')
           = Some (invested a (pushedEntry user a env) p)
        /\ notifications db' = notifications db
        /\ ((investments db' = investments db
             /\ transactions db' = transactions db)
            \/ exists inv,
                 investments db' = investments db ++ [inv]
                 /\ Investment.projectId inv = projectId
                 /\ Investment.investorWallet inv = User._id user
                 /\ Investment.amount inv = a
                 /\ (transactions db' = transactions db
                     \/ exists tx,
                          transactions db' = transactions db ++ [tx]
                          /\ Transaction.type tx = Transaction.investment
                          /\ Transaction.txHash tx = Investment.txHash inv
                          /\ Transaction.amount tx = a))
  | _ => db' = db
  end.
Proof.
  unfold postInvestment.
  destruct (negb (Role_eqb (User.role user) investor)); [reflexivity|].
  destruct (Qle_bool a 0) eqn:Ha; [reflexivity|].
  fold (pushedEntry user a env).
  destruct (findById FundingRequest._id projectId (fundingRequests db))
    as [p|] eqn:Hp.
  2:{ now rewrite (findByIdAndUpdate_missing _ _ _ _ Hp). }
  destruct (findByIdAndUpdate_found _ a (pushedEntry user a env) _ _ Hp)
    as (c' & -> & Hc').
  pose proof (findById_key _ _ _ _ Hp) as Hid.
  destruct (find _ _) as [entry|].
  2:{ exists p. simpl. repeat split; auto. }
  unfold Investment_insert, Investment_pre_save_new, Transaction_insert.
  simpl. rewrite Hid, Hc'. simpl.
  assert (Qltb a 0 = false) as ->.
  { unfold Qltb. apply negb_false_iff, Qle_bool_iff.
    apply Qlt_le_weak, Qnot_le_lt. intro H. apply Qle_bool_iff in H.
    congruence. }
  destruct (hash_used _ _); simpl.
  - exists p. repeat split; auto.
    right. eexists. repeat split; auto.
  - rewrite formatInvestment_snapshot with (snap := snapshot_of (invested a (pushedEntry user a env) p))
      by reflexivity.
    exists p. simpl. repeat split; auto.
    right. eexists. split; [reflexivity|]. repeat split; auto.
    right. eexists. split; [reflexivity|]. repeat split.
Qed.

(** Once the caller is an investor, the amount positive and the project in
    the store, the handler makes the project update whatever the project's
    amounts and status are: no branch of it reads them. *)
Lemma postInvestment_accepted db user projectId a env p :
  User.role user = investor ->
  Qle_bool a 0 = false ->
  findById FundingRequest._id projectId (fundingRequests db) = Some p ->
  let (resp, db') := postInvestment db user projectId a env in
  findById FundingRequest._id projectId (fundingRequests db')
  = Some (invested a (pushedEntry user a env) p)
  /\ (resp = Created \/ resp = ServerError).
Proof.
  intros Hrole Ha Hp. unfold postInvestment. rewrite Hrole, Ha.
  cbn [negb Role_eqb]. fold (pushedEntry user a env).
  destruct (findByIdAndUpdate_found _ a (pushedEntry user a env) _ _ Hp)
    as (c' & -> & Hc').
  destruct (find _ _) as [entry|]; [|split; [exact Hc'|now right]].
  pose proof (findById_key _ _ _ _ Hp) as Hid.
  unfold Investment_insert, Investment_pre_save_new, Transaction_insert.
  simpl. rewrite Hid, Hc'. simpl.
  assert (Qltb a 0 = false) as ->.
  { unfold Qltb. apply negb_false_iff, Qle_bool_iff.
    apply Qlt_le_weak, Qnot_le_lt. intro H. apply Qle_bool_iff in H.
    congruence. }
  destruct (hash_used _ _); simpl; [split; auto|].
  destruct (formatInvestment _ _); simpl; split; auto.
Qed.

(** The handler never writes the project's status. *)
Lemma postInvestment_keeps_status db user projectId a env p p' :
  findById FundingRequest._id projectId (fundingRequests db) = Some p ->
  findById FundingRequest._id projectId
    (fundingRequests (snd (postInvestment db user projectId a env))) = Some p' ->
  FundingRequest.status p' = FundingRequest.status p.
Proof.
  intros Hp Hp'.
  pose proof (postInvestment_outcomes db user projectId a env) as H.
  destruct (postInvestment db user projectId a env) as [resp db'].
  simpl in Hp'.
  destruct resp;
    try (subst db'; rewrite Hp in Hp'; now injection Hp' as <-).
  - contradiction.
  - destruct H as (q & Hq & Hq' & _).
    rewrite Hp in Hq. injection Hq as <-.
    rewrite Hp' in Hq'. now injection Hq' as ->.
Qed.

(** ** Overfunding *)

(** C1 (the code departs from the claim).  An investment that takes
    [fundedAmount] past the requested [amount] is not rejected: the
    handler's answer is never a 400, and the stored [fundedAmount] becomes
    [fundedAmount + amount], above the requested total, with the
    contribution appended in full. *)
Theorem invest_overfunding_not_rejected db user projectId a env p :
  User.role user = investor ->
  Qle_bool a 0 = false ->
  findById FundingRequest._id projectId (fundingRequests db) = Some p ->
  (FundingRequest.amount p < FundingRequest.fundedAmount p + a)%Q ->
  let (resp, db') := postInvestment db user projectId a env in
  (resp = Created \/ resp = ServerError)
  /\ exists p',
       findById FundingRequest._id projectId (fundingRequests db') = Some p'
       /\ FundingRequest.fundedAmount p' = (FundingRequest.fundedAmount p + a)%Q
       /\ (FundingRequest.amount p' < FundingRequest.fundedAmount p')%Q
       /\ FundingRequest.investors p'
          = FundingRequest.investors p ++ [pushedEntry user a env].
Proof.
  intros Hrole Ha Hp Hover.
  pose proof (postInvestment_accepted db user projectId a env p Hrole Ha Hp) as H.
  destruct (postInvestment db user projectId a env) as [resp db'].
  destruct H as [Hp' Hresp]. split; [exact Hresp|].
  eexists; split; [exact Hp'|]. simpl. auto.
Qed.

(** The scenario: 60 invested in the 50-unit request. *)
Lemma invest_overfunding_not_rejected_witness :
  let (resp, db') :=
    postInvestment Scenario.db_created Scenario.alice 0%N 60
      (Scenario.at_ 1000 "b") in
  (resp = Created \/ resp = ServerError)
  /\ exists p',
       findById FundingRequest._id 0%N (fundingRequests db') = Some p'
       /\ FundingRequest.fundedAmount p' = (0 + 60)%Q
       /\ (FundingRequest.amount p' < FundingRequest.fundedAmount p')%Q
       /\ FundingRequest.investors p'
          = [] ++ [pushedEntry Scenario.alice 60 (Scenario.at_ 1000 "b")].
Proof.
  apply (invest_overfunding_not_rejected Scenario.db_created Scenario.alice
           0%N 60 (Scenario.at_ 1000 "b") Scenario.wheatRequest);
    reflexivity.
Defined.

(** ** Atomicity of an investment *)

(** C6, counterexample.  Alice invests 10 twice within five seconds.  The
    second call fails (500) after its project update: the funded amount
    has gone from 10 to 20 and the contribution is in the list, but the
    ledger is as before and holds no entry for the hash of the new
    contribution. *)
Lemma invest_partial_failure_counterexample :
  let db1 :=
    snd (run (emptyDB Scenario.vs)
           [Scenario.create;
            POST_investment Scenario.alice 0 10 (Scenario.at_ 1000 "b")]) in
  let (resp, db2) :=
    postInvestment db1 Scenario.alice 0 10 (Scenario.at_ 2000 "c") in
  resp = ServerError
  /\ option_map FundingRequest.fundedAmount (Scenario.project db1) = Some 10
  /\ option_map FundingRequest.fundedAmount (Scenario.project db2) = Some 20
  /\ option_map (fun p => map InvestorEntry.txHash (FundingRequest.investors p))
       (Scenario.project db2)
     = Some [js "sim_invest_b"; js "sim_invest_c"]
  /\ transactions db2 = transactions db1
  /\ hash_used (js "sim_invest_c") (transactions db2) = false.
Proof. vm_compute. repeat split. Qed.

(** C6, as amended.  The handler makes its writes one after the other,
    without a transaction and without undoing any.  A call answered 403,
    400 or 404 has written nothing.  A call answered 201 or 500 has made
    the project update -- the funded amount increased and the contribution
    appended -- and after it has written nothing more, or the investment
    record, or the record and then the "investment" ledger entry with the
    record's hash and amount: the ledger entry is never there without the
    record, nor the record without the project update. *)
Theorem invest_writes_in_order db user projectId a env :
  let (resp, db') := postInvestment db user projectId a env in
  (resp = Forbidden \/ resp = NotFound \/ (exists why, resp = BadRequest why) ->
   db' = db)
  /\ (resp = Created \/ resp = ServerError ->
      exists p,
        findById FundingRequest._id projectId (fundingRequests db) = Some p
        /\ findById FundingRequest._id projectId (fundingRequests db')
           = Some (invested a (pushedEntry user a env) p)
        /\ ((investments db' = investments db
             /\ transactions db' = transactions db)
            \/ exists inv,
                 investments db' = investments db ++ [inv]
                 /\ Investment.projectId inv = projectId
                 /\ Investment.investorWallet inv = User._id user
                 /\ Investment.amount inv = a
                 /\ (transactions db' = transactions db
                     \/ exists tx,
                          transactions db' = transactions db ++ [tx]
                          /\ Transaction.type tx = Transaction.investment
                          /\ Transaction.txHash tx = Investment.txHash inv
                          /\ Transaction.amount tx = a))).
Proof.
  pose proof (postInvestment_outcomes db user projectId a env) as H.
  destruct (postInvestment db user projectId a env) as [resp db'].
  split.
  - intros [->|[->|[why ->]]]; exact H.
  - intros [->| ->]; [contradiction|].
    destruct H as (p & Hp & Hp' & _ & Hw). now exists p.
Qed.

(** ** The funded amount and the contributions *)

Lemma reachable_run vs rs : reachable (snd (run (emptyDB vs) rs)).
Proof. now exists vs, rs. Qed.

(** C3 (the code departs from the claim).  Two reachable states.  After
    Alice's investment of 60 in the 50-unit request the stored funded
    amount is 60, above the requested 50.  After the farmer's next save of
    the request the hook has cut the funded amount to 50, while the
    contributions still sum to 60. *)
Theorem funded_amount_invariant_broken :
  (reachable Scenario.db_overfunded
   /\ exists p,
        Scenario.project Scenario.db_overfunded = Some p
        /\ FundingRequest.amount p = 50
        /\ FundingRequest.fundedAmount p = 60
        /\ (FundingRequest.amount p < FundingRequest.fundedAmount p)%Q)
  /\ (reachable Scenario.db_overfunded_saved
      /\ exists p,
           Scenario.project Scenario.db_overfunded_saved = Some p
           /\ FundingRequest.fundedAmount p = 50
           /\ contributed p == 60
           /\ ~ FundingRequest.fundedAmount p == contributed p).
Proof.
  split; (split; [apply reachable_run|]).
  - eexists; split; [vm_compute; reflexivity|]. repeat split.
  - eexists; split; [vm_compute; reflexivity|].
    split; [reflexivity|]. split; [reflexivity|]. discriminate.
Qed.

(** ** The derived status *)

(** C4 (the code departs from the claim).  Alice invests 30 in the 50-unit
    request.  The call makes all its writes -- the contribution, the record
    and the ledger entry are in the store -- and the stored funded amount is
    30, strictly between 0 and the requested 50, while the stored status is
    still [pending]: the update made by the handler does not go through the
    hook that derives the status. *)
Theorem status_stale_after_invest :
  let db :=
    snd (run (emptyDB Scenario.vs)
           [Scenario.create;
            POST_investment Scenario.alice 0 30 (Scenario.at_ 1000 "b")]) in
  reachable db
  /\ (exists p,
        Scenario.project db = Some p
        /\ FundingRequest.status p = FundingRequest.pending
        /\ FundingRequest.fundedAmount p = 30
        /\ (0 < FundingRequest.fundedAmount p)%Q
        /\ (FundingRequest.fundedAmount p < FundingRequest.amount p)%Q
        /\ FundingRequest.investors p
           = [pushedEntry Scenario.alice 30 (Scenario.at_ 1000 "b")])
  /\ map (fun i => (Investment.projectId i, Investment.amount i))
       (investments db) = [(0%N, 30)]
  /\ map (fun t => (Transaction.type t, Transaction.txHash t)) (transactions db)
     = [(Transaction.investment, js "sim_invest_b")].
Proof.
  split; [apply reachable_run|].
  split; [|split; vm_compute; reflexivity].
  eexists; split; [vm_compute; reflexivity|]. repeat split.
Qed.

(** ** Terminal statuses and the save hook *)

(** The status the hook leaves is one of the three derived ones, whatever
    status the document had. *)
Lemma pre_save_status (d : FundingRequest.t) :
  FundingRequest.status (FundingRequest.pre_save d) = FundingRequest.funded
  \/ FundingRequest.status (FundingRequest.pre_save d)
     = FundingRequest.partially_funded
  \/ FundingRequest.status (FundingRequest.pre_save d) = FundingRequest.pending.
Proof.
  unfold FundingRequest.pre_save.
  destruct (Qltb _ _); destruct (Qle_bool _ _); try destruct (Qltb 0 _);
    simpl; auto.
Qed.


(** C7 (the code departs from the claim).  Alice funds the whole request
    and her investment, the only one of the project, reaches 100.  Every
    record of the project is then [harvested]; the handler sets the project
    [completed], saves it and stores the notification of the completion to
    the farmer; and the stored status of the project is [funded]. *)
Theorem project_not_completed_after_harvest :
  reachable Scenario.db_harvested
  /\ map (fun i => (Investment.projectId i, Investment.status i))
       (investments Scenario.db_harvested) = [(0%N, Investment.harvested)]
  /\ In (Notification.mk (Some 1%N) false Notification.n_update 0%N
           Notification.FundingRequestItem)
       (notifications Scenario.db_harvested)
  /\ option_map FundingRequest.status (Scenario.project Scenario.db_harvested)
     = Some FundingRequest.funded.
Proof.
  split; [apply reachable_run|].
  split; [vm_compute; reflexivity|].
  split; [vm_compute; auto 10|].
  vm_compute; reflexivity.
Qed.

(** ** Correlation ids *)

(** C10 (the code departs from the claim).  Alice invests 10 three times.
    The second call, one second after the first, finds the first call's
    entry and creates a record with the first hash, which the ledger's
    unique index refuses.  The third call makes all its writes: it appends
    the contribution with hash [sim_invest_d], but its record and its ledger
    entry carry [sim_invest_c], the hash of the contribution appended by
    the second call. *)
Theorem invest_record_takes_older_hash :
  let db := snd (run (emptyDB Scenario.vs) Scenario.three_investments) in
  reachable db
  /\ option_map (fun p => map InvestorEntry.txHash (FundingRequest.investors p))
       (Scenario.project db)
     = Some [js "sim_invest_b"; js "sim_invest_c"; js "sim_invest_d"]
  /\ map Investment.txHash (investments db)
     = [js "sim_invest_b"; js "sim_invest_b"; js "sim_invest_c"]
  /\ map (fun t => (Transaction.type t, Transaction.txHash t)) (transactions db)
     = [(Transaction.investment, js "sim_invest_b");
        (Transaction.investment, js "sim_invest_c")].
Proof.
  split; [apply reachable_run|].
  vm_compute. repeat split.
Qed.

(** ** The invariant holds in every reachable state *)

Lemma pre_save_roi d :
  FundingRequest.roi (FundingRequest.pre_save d) = FundingRequest.roi d.
Proof.
  unfold FundingRequest.pre_save.
  destruct (Qltb _ _); destruct (Qle_bool _ _); try destruct (Qltb 0 _);
    reflexivity.
Qed.

Lemma pre_save_id d :
  FundingRequest._id (FundingRequest.pre_save d) = FundingRequest._id d.
Proof.
  unfold FundingRequest.pre_save.
  destruct (Qltb _ _); destruct (Qle_bool _ _); try destruct (Qltb 0 _);
    reflexivity.
Qed.

Ltac validate_parts V :=
  unfold FundingRequest.validate in V;
  repeat (apply andb_true_iff in V as [V ?]).

Ltac validate_goal :=
  unfold FundingRequest.validate;
  repeat (apply andb_true_iff; split).

(** The bounds a validated request satisfies. *)
Lemma validate_bounds d :
  FundingRequest.validate d = true ->
  Qle_bool 1 (FundingRequest.amount d) = true
  /\ Qle_bool 0 (FundingRequest.roi d) = true
  /\ Qle_bool (FundingRequest.roi d) 100 = true
  /\ Qle_bool 0 (FundingRequest.fundedAmount d) = true.
Proof. intros V. validate_parts V. repeat split; assumption. Qed.

(** Validation does not read the status. *)
Lemma validate_set_status s d :
  FundingRequest.validate (FundingRequest.set_status s d)
  = FundingRequest.validate d.
Proof. now destruct d. Qed.

(** What the hook returns: the document with a status assigned, and
    with the funded amount cut to the requested amount or untouched. *)
Lemma pre_save_cases d :
  exists s,
    FundingRequest.pre_save d = FundingRequest.set_status s d
    \/ FundingRequest.pre_save d
       = FundingRequest.set_status s
           (FundingRequest.set_fundedAmount (FundingRequest.amount d) d).
Proof.
  unfold FundingRequest.pre_save.
  destruct (Qltb (FundingRequest.amount d) (FundingRequest.fundedAmount d)).
  - destruct (Qle_bool _ _); [|destruct (Qltb 0 _)]; eexists; right; reflexivity.
  - destruct (Qle_bool _ _); [|destruct (Qltb 0 _)]; eexists; left; reflexivity.
Qed.

(** A document that passed validation still passes it after the hook. *)
Lemma validate_pre_save d :
  FundingRequest.validate d = true ->
  FundingRequest.validate (FundingRequest.pre_save d) = true.
Proof.
  intros V. destruct (pre_save_cases d) as (s & [-> | ->]);
    rewrite validate_set_status; [exact V|].
  pose proof (validate_bounds _ V) as (Ham & _).
  destruct d as [id fw ti cr ac am me de tl ro sh ci fa st ca inv up].
  simpl in Ham.
  assert (Qle_bool 0 am = true) as Ham0.
  { apply Qle_bool_iff in Ham. apply Qle_bool_iff. lra. }
  validate_parts V. cbn [FundingRequest.set_fundedAmount] in *.
  validate_goal; assumption.
Qed.

(** A validated document is still valid with one more contribution of a
    positive amount. *)
Lemma validate_invested a e p :
  Qle_bool a 0 = false ->
  InvestorEntry.amount e = a ->
  FundingRequest.validate p = true ->
  FundingRequest.validate
    (FundingRequest.set_investors (FundingRequest.investors p ++ [e])
       (FundingRequest.set_fundedAmount (FundingRequest.fundedAmount p + a)%Q
          p)) = true.
Proof.
  destruct p as [id fw ti cr ac am me de tl ro sh ci fa st ca inv up].
  intros Ha He V.
  assert (0 < a)%Q as Hpos.
  { apply Qnot_le_lt. intro H. apply Qle_bool_iff in H. congruence. }
  validate_parts V. simpl in *.
  validate_goal; simpl; try assumption.
  - match goal with
    | H : Qle_bool 0 fa = true |- _ => apply Qle_bool_iff in H
    end.
    apply Qle_bool_iff. lra.
  - rewrite forallb_app. apply andb_true_iff. split; [assumption|].
    simpl. unfold FundingRequest.entry_valid. rewrite He.
    rewrite andb_true_r. apply Qle_bool_iff. lra.
Qed.

Lemma frOK_pre_save d :
  FundingRequest.validate d = true -> frOK (FundingRequest.pre_save d).
Proof.
  intros H. split; [apply pre_save_status|now apply validate_pre_save].
Qed.

Lemma invOK_more txs t i : invOK txs i -> invOK (txs ++ [t]) i.
Proof.
  unfold invOK, paidOut. intros (Hroi & Ha & Hs). repeat split; auto.
  destruct (Investment.status i); auto.
  destruct Hs as (Hn & h & roi & ? & ? & ? & t' & Hin & ? & ?).
  split; [exact Hn|]. exists h, roi. repeat split; auto.
  exists t'. repeat split; auto. apply in_or_app. now left.
Qed.

Lemma hash_used_In h txs :
  hash_used h txs = false -> ~ In h (map Transaction.txHash txs).
Proof.
  unfold hash_used. induction txs as [|t txs IH]; simpl; [tauto|].
  intros H. apply orb_false_iff in H as [Ht Hr].
  intros [E|Hin]; [|now apply IH].
  rewrite E, seqb_refl in Ht. discriminate.
Qed.

Lemma NoDup_snoc {A} (l : list A) (x : A) :
  NoDup l -> ~ In x l -> NoDup (l ++ [x]).
Proof.
  induction 1 as [|y l Hy Hl IH]; simpl; intros Hx.
  - constructor; [tauto|constructor].
  - constructor.
    + rewrite in_app_iff. simpl. intros [?|[?|[]]]; [tauto|subst; tauto].
    + apply IH. tauto.
Qed.

Lemma Inv_notify ns db : Inv db -> Inv (notify ns db).
Proof. exact (fun H => H). Qed.

Lemma Inv_Transaction_insert t db db' :
  Transaction_insert t db = inr db' ->
  Inv db ->
  Inv db'
  /\ transactions db' = transactions db ++ [t]
  /\ investments db' = investments db
  /\ fundingRequests db' = fundingRequests db.
Proof.
  unfold Transaction_insert.
  destruct (Qltb _ 0); [discriminate|].
  destruct (hash_used _ _) eqn:Hh; [discriminate|].
  intros [= <-] (Hf & Hi & Hn). unfold Inv. simpl. repeat split; auto.
  - eapply Forall_impl; [|exact Hi]. intros i. apply invOK_more.
  - rewrite map_app. simpl. apply NoDup_snoc; [exact Hn|].
    now apply hash_used_In.
Qed.

Lemma Inv_FundingRequest_save d db d' db' :
  FundingRequest_save d db = inr (d', db') ->
  Inv db ->
  Inv db'
  /\ transactions db' = transactions db
  /\ investments db' = investments db.
Proof.
  unfold FundingRequest_save.
  destruct (FundingRequest.validate d) eqn:V; [|discriminate].
  intros [= <- <-] (Hf & Hi & Hn). unfold Inv. simpl. repeat split; auto.
  apply Forall_replaceOne; [now apply frOK_pre_save|exact Hf].
Qed.

Lemma frOK_found i db p :
  Inv db ->
  findById FundingRequest._id i (fundingRequests db) = Some p -> frOK p.
Proof.
  intros (Hf & _) Hp. apply findById_In in Hp.
  rewrite Forall_forall in Hf. now apply Hf.
Qed.

Lemma invOK_found i db inv :
  Inv db ->
  findById Investment._id i (investments db) = Some inv ->
  invOK (transactions db) inv.
Proof.
  intros (_ & Hi & _) Hp. apply findById_In in Hp.
  rewrite Forall_forall in Hi. now apply Hi.
Qed.

Lemma Inv_postFundingRequest db user body env :
  Inv db -> Inv (snd (postFundingRequest db user body env)).
Proof.
  intros HI. unfold postFundingRequest.
  destruct (negb _); [exact HI|].
  destruct (_ || _); [exact HI|].
  destruct (_ || _); [exact HI|].
  destruct (find _ (videos db)) as [video|]; [|exact HI].
  destruct (find _ (fundingRequests db)); [exact HI|].
  unfold FundingRequest_insert.
  destruct (FundingRequest.validate _) eqn:V; [|exact HI].
  destruct HI as (Hf & Hi & Hn). unfold Inv. simpl. repeat split; auto.
  apply Forall_app. split; [exact Hf|].
  constructor; [|constructor]. now apply frOK_pre_save.
Qed.

Lemma Inv_putFundingRequest db user requestId updateText status env :
  Inv db -> Inv (snd (putFundingRequest db user requestId updateText status env)).
Proof.
  intros HI. unfold putFundingRequest.
  destruct (_ && _); [exact HI|].
  destruct (findById _ _ _) as [request|] eqn:Hr; [|exact HI].
  destruct (negb _); [exact HI|].
  destruct (nonblank updateText); destruct status as [s|];
    try (destruct (_ && _); [exact HI|]);
    (destruct (FundingRequest_save _ _) as [e|[d' db']] eqn:Hs; [exact HI|]);
    (apply Inv_FundingRequest_save in Hs; [|exact HI]);
    destruct (chainedPopulate env); apply Hs.
Qed.

Lemma Inv_deleteFundingRequest db user requestId :
  Inv db -> Inv (snd (deleteFundingRequest db user requestId)).
Proof.
  intros HI. unfold deleteFundingRequest.
  destruct (findById _ _ _); [|exact HI].
  destruct (negb _); [exact HI|].
  destruct (Qltb _ _); [exact HI|].
  destruct HI as (Hf & Hi & Hn). unfold Inv. simpl. repeat split; auto.
  now apply Forall_deleteOne.
Qed.

Lemma Forall_findByIdAndUpdate (P : FundingRequest.t -> Prop) i a e c x' c' :
  (forall p, P p -> P (invested a e p)) ->
  Forall P c ->
  findByIdAndUpdate i a e c = Some (x', c') ->
  Forall P c'.
Proof.
  intros HP. revert c'. induction c as [|x c IH]; simpl; [discriminate|].
  intros c' HF. inversion_clear HF as [|? ? Hx Hc].
  destruct (FundingRequest._id x =? i)%N.
  - intros [= <- <-]. constructor; [now apply HP|exact Hc].
  - destruct (findByIdAndUpdate i a e c) as [[y c'']|]; [|discriminate].
    intros [= <- <-]. constructor; [exact Hx|]. now apply IH.
Qed.

Lemma Qle_bool_0_of_pos a : Qle_bool a 0 = false -> Qle_bool 0 a = true.
Proof.
  intros H. apply Qle_bool_iff, Qlt_le_weak, Qnot_le_lt.
  intro H'. apply Qle_bool_iff in H'. congruence.
Qed.

Lemma frOK_invested user a env p :
  Qle_bool a 0 = false -> frOK p -> frOK (invested a (pushedEntry user a env) p).
Proof.
  intros Ha [Hst V]. split; [exact Hst|].
  now apply validate_invested.
Qed.

Lemma Inv_postInvestment db user projectId a env :
  Inv db -> Inv (snd (postInvestment db user projectId a env)).
Proof.
  intros HI. unfold postInvestment.
  destruct (negb _); [exact HI|].
  destruct (Qle_bool a 0) eqn:Ha; [exact HI|].
  fold (pushedEntry user a env).
  destruct (findById FundingRequest._id projectId (fundingRequests db))
    as [p|] eqn:Hp.
  2:{ now rewrite (findByIdAndUpdate_missing _ _ _ _ Hp). }
  destruct (findByIdAndUpdate_found _ a (pushedEntry user a env) _ _ Hp)
    as (c' & E & Hc').
  rewrite E.
  pose proof (frOK_found _ _ _ HI Hp) as [_ Hval].
  pose proof (validate_bounds _ Hval) as (_ & Hroi & _).
  destruct HI as (Hf & Hi & Hn).
  assert (Forall frOK c') as Hf'.
  { eapply Forall_findByIdAndUpdate; [|exact Hf|exact E].
    intros q Hq. now apply frOK_invested. }
  assert (Inv (set_fundingRequests c' db)) as HI1.
  { unfold Inv. simpl. repeat split; auto. }
  destruct (find _ _) as [entry|]; [|exact HI1].
  pose proof (findById_key _ _ _ _ Hp) as Hid.
  unfold Investment_insert, Investment_pre_save_new.
  simpl. rewrite Hid, Hc'. simpl.
  match goal with
  | |- Inv (snd (match Transaction_insert ?t ?d with _ => _ end)) =>
      assert (Inv d) as HI2; [|destruct (Transaction_insert t d) as [err|db3] eqn:Htx]
  end.
  - unfold Inv. simpl. repeat split; auto.
    apply Forall_app. split; [exact Hi|].
    constructor; [|constructor].
    unfold invOK. simpl. repeat split.
    + eexists. split; [reflexivity|]. simpl. exact Hroi.
    + now apply Qle_bool_0_of_pos.
  - exact HI2.
  - destruct (formatInvestment _ _); simpl;
      now apply (Inv_Transaction_insert _ _ _ Htx).
Qed.

Lemma payout_not_negative amount roi :
  Qle_bool 0 amount = true -> Qle_bool 0 roi = true ->
  Qltb (amount * (roi / 100)) 0 = false.
Proof.
  intros Ha Hr. apply Qle_bool_iff in Ha, Hr.
  unfold Qltb. apply negb_false_iff, Qle_bool_iff.
  apply Qmult_le_0_compat; [exact Ha|].
  apply Qmult_le_0_compat; [exact Hr|]. discriminate.
Qed.

Lemma applyProgress_Inv db project inv env inv' db' triggered :
  applyProgress db project inv env = inr (inv', db', triggered) ->
  Inv db ->
  invOK (transactions db) inv ->
  Inv db'
  /\ invOK (transactions db') inv'
  /\ investments db' = investments db
  /\ fundingRequests db' = fundingRequests db
  /\ Investment._id inv' = Investment._id inv.
Proof.
  intros H HI Hok. unfold applyProgress in H.
  destruct inv as [id w pid snap amt st prog date h pa pd ph pn].
  unfold invOK, Investment.roi_of in Hok. simpl in Hok.
  destruct Hok as ((roi & Hroi & Hroi0) & Hamt & Hst).
  destruct snap as [s|]; [|discriminate]. simpl in Hroi.
  injection Hroi as <-.
  unfold Investment.roi_of in H. simpl in H.
  destruct (100 <=? prog)%Z; destruct st; simpl in H, Hst; try contradiction;
    try subst pn; simpl in H.
  1,2:
    destruct (Transaction_insert _ db) as [e|db1] eqn:Htx; [discriminate|];
    injection H as <- <- <-;
    destruct (Inv_Transaction_insert _ _ _ Htx HI) as (HI1 & Ht & Hi & Hf);
    (split; [apply Inv_notify; exact HI1|]);
    unfold invOK, paidOut, Investment.roi_of; simpl; rewrite Ht;
    repeat split; auto;
    [ eexists; split; [reflexivity|exact Hroi0]
    | do 2 eexists; repeat split;
      eexists; split; [apply in_or_app; right; left; reflexivity|];
      split; reflexivity ].
  all: destruct (0 <? prog)%Z; destruct (prog =? 0)%Z; simpl in H;
    injection H as <- <- <-;
    (split; [exact HI|]);
    (split; [|repeat split; reflexivity]);
    unfold invOK, Investment.roi_of; simpl;
    (split; [eexists; split; [reflexivity|exact Hroi0]|]);
    (split; [exact Hamt|]); try exact Hst; reflexivity.
Qed.

Lemma addUpdateText_Inv db project updateText env db' :
  addUpdateText db project updateText env = inr db' ->
  Inv db ->
  Inv db'
  /\ transactions db' = transactions db
  /\ investments db' = investments db.
Proof.
  unfold addUpdateText. intros H HI.
  destruct project as [p|]; [|injection H as <-; auto].
  destruct (nonblank updateText); [|injection H as <-; auto].
  destruct (findById _ _ _) as [fr|] eqn:Hfr; [|injection H as <-; auto].
  destruct (FundingRequest_save _ _) as [e|[saved db1]] eqn:Hs;
    [discriminate|].
  injection H as <-.
  apply Inv_FundingRequest_save in Hs; [|exact HI].
  destruct Hs as (H1 & H2 & H3). repeat split; auto; apply H1.
Qed.

Lemma checkProjectCompleted_Inv db projectId db' :
  checkProjectCompleted db projectId = inr db' ->
  Inv db ->
  Inv db'
  /\ transactions db' = transactions db
  /\ investments db' = investments db.
Proof.
  unfold checkProjectCompleted. intros H HI.
  destruct (_ && _); [|injection H as <-; auto].
  destruct (findById _ _ _) as [fr|] eqn:Hfr; [|injection H as <-; auto].
  destruct (negb _); [|injection H as <-; auto].
  destruct (FundingRequest_save _ _) as [e|[saved db1]] eqn:Hs;
    [discriminate|].
  injection H as <-.
  apply Inv_FundingRequest_save in Hs; [|exact HI].
  destruct Hs as (H1 & H2 & H3). repeat split; auto; apply H1.
Qed.

Lemma invOK_set_progress txs n inv :
  invOK txs inv -> invOK txs (Investment.set_progress n inv).
Proof. destruct inv. exact (fun H => H). Qed.

Lemma Inv_Investment_save inv db db' :
  Investment_save inv db = inr db' ->
  Inv db -> invOK (transactions db) inv ->
  Inv db'
  /\ transactions db' = transactions db
  /\ fundingRequests db' = fundingRequests db.
Proof.
  unfold Investment_save.
  destruct (Investment.validate inv); [|discriminate].
  intros [= <-] (Hf & Hi & Hn) Hok. unfold Inv. simpl. repeat split; auto.
  now apply Forall_replaceOne.
Qed.

Lemma Inv_putProgress_try db investmentId p updateText env :
  Inv db -> Inv (snd (putProgress_try db investmentId p updateText env)).
Proof.
  intros HI. unfold putProgress_try.
  destruct (findById _ _ _) as [inv|] eqn:Hinv; [|exact HI].
  destruct (_ && _); [exact HI|].
  pose proof (invOK_found _ _ _ HI Hinv) as Hok.
  apply (invOK_set_progress _ p) in Hok.
  destruct (applyProgress _ _ _ _) as [e|[[inv1 db1] triggered]] eqn:Hap;
    [exact HI|].
  destruct (applyProgress_Inv _ _ _ _ _ _ _ Hap HI Hok)
    as (HI1 & Hok1 & _).
  destruct (addUpdateText _ _ _ _) as [e|db2] eqn:Hup; [exact HI1|].
  destruct (addUpdateText_Inv _ _ _ _ _ Hup HI1) as (HI2 & Ht2 & _).
  destruct (Investment_save inv1 db2) as [e|db3] eqn:Hsv; [exact HI2|].
  assert (Inv db3) as HI3.
  { apply (Inv_Investment_save _ _ _ Hsv HI2). now rewrite Ht2. }
  destruct (findById FundingRequest._id _ _) as [pr|].
  - destruct (_ && _).
    + destruct (checkProjectCompleted db3 _) as [e|db4] eqn:Hc; [exact HI3|].
      destruct (formatInvestment _ _);
        apply (checkProjectCompleted_Inv _ _ _ Hc HI3).
    + destruct (formatInvestment _ _); exact HI3.
  - destruct (formatInvestment _ _); exact HI3.
Qed.

Lemma Inv_putProgress db user investmentId progress updateText env :
  Inv db ->
  Inv (snd (putProgress db user investmentId progress updateText env)).
Proof.
  intros HI. unfold putProgress.
  destruct (parseInt progress) as [p|]; [|exact HI].
  destruct (_ || _); [exact HI|].
  now apply Inv_putProgress_try.
Qed.

(** Every reachable state satisfies the invariant. *)
Lemma Inv_handle db r : Inv db -> Inv (snd (handle db r)).
Proof.
  destruct r; simpl.
  - apply Inv_postFundingRequest.
  - apply Inv_putFundingRequest.
  - apply Inv_deleteFundingRequest.
  - apply Inv_postInvestment.
  - apply Inv_putProgress.
Qed.

Lemma Inv_run rs : forall db, Inv db -> Inv (snd (run db rs)).
Proof.
  induction rs as [|r rs IH]; intros db HI; simpl; [exact HI|].
  pose proof (Inv_handle db r HI) as H1.
  destruct (handle db r) as [resp db1]. simpl in H1.
  specialize (IH db1 H1).
  destruct (run db1 rs) as [resps db2]. exact IH.
Qed.

Lemma reachable_Inv db : reachable db -> Inv db.
Proof.
  intros (vs & rs & <-). apply Inv_run.
  unfold Inv, emptyDB. simpl. repeat split; constructor.
Qed.

(** In a reachable state no request is [completed] or [cancelled]: each
    save stores a status derived from the amounts. *)
Lemma reachable_status_derived db p :
  reachable db -> In p (fundingRequests db) ->
  derived_status (FundingRequest.status p).
Proof.
  intros R Hin. destruct (reachable_Inv db R) as (Hf & _).
  rewrite Forall_forall in Hf. now apply Hf.
Qed.

(** ** Progress updates *)

Lemma DB_eta_investments db : set_investments (investments db) db = db.
Proof. now destruct db. Qed.

Lemma checkProjectCompleted_frame db projectId db' :
  checkProjectCompleted db projectId = inr db' ->
  transactions db' = transactions db /\ investments db' = investments db.
Proof.
  unfold checkProjectCompleted, FundingRequest_save.
  destruct (_ && _); [|now intros [= <-]].
  destruct (findById _ _ _); [|now intros [= <-]].
  destruct (negb _); [|now intros [= <-]].
  destruct (FundingRequest.validate _); [|discriminate].
  now intros [= <-].
Qed.

(** The completion check goes through when the request it would save
    passes validation. *)
Lemma checkProjectCompleted_valid db projectId :
  (forall fr,
     findById FundingRequest._id projectId (fundingRequests db) = Some fr ->
     FundingRequest.validate fr = true) ->
  exists db', checkProjectCompleted db projectId = inr db'.
Proof.
  intros Hv. unfold checkProjectCompleted, FundingRequest_save.
  destruct (_ && _); [|eauto].
  destruct (findById _ _ _) as [fr|]; [|eauto].
  destruct (negb _); [|eauto].
  rewrite validate_set_status, (Hv fr eq_refl). eauto.
Qed.

(** A progress of 100 on a [harvested] record whose amount is not
    negative: the only write is the record with [progress] 100. *)
Lemma putProgress_try_harvested_100 db investmentId inv env :
  findById Investment._id investmentId (investments db) = Some inv ->
  Investment.status inv = Investment.harvested ->
  Qle_bool 0 (Investment.amount inv) = true ->
  putProgress_try db investmentId 100 None env
  = (if formatInvestment env (Investment.set_progress 100 inv)
     then Ok else ServerError,
     set_investments
       (replaceOne Investment._id (Investment.set_progress 100 inv)
          (investments db)) db).
Proof.
  intros Hf Hs Ha. unfold putProgress_try. rewrite Hf.
  destruct inv as [id w pid snap amt st prog date h pa pd ph pn].
  simpl in Hs, Ha. subst st.
  unfold Investment_save, Investment.validate. simpl. rewrite Ha. simpl.
  destruct (findById FundingRequest._id pid (fundingRequests db));
    simpl; now destruct (formatInvestment _ _).
Qed.

Lemma putProgress_try_resubmit_100 db investmentId inv env :
  findById Investment._id investmentId (investments db) = Some inv ->
  Investment.status inv = Investment.harvested ->
  Investment.progress inv = 100%Z ->
  Qle_bool 0 (Investment.amount inv) = true ->
  putProgress_try db investmentId 100 None env
  = (if formatInvestment env inv then Ok else ServerError, db).
Proof.
  intros Hf Hs Hp Ha.
  rewrite (putProgress_try_harvested_100 _ _ _ _ Hf Hs Ha).
  assert (Investment.set_progress 100 inv = inv) as ->.
  { destruct inv. simpl in Hp. now subst. }
  rewrite replaceOne_found.
  - now rewrite DB_eta_investments.
  - now rewrite (findById_key _ _ _ _ Hf).
Qed.

(** The text [100] is read as 100. *)
Lemma putProgress_100 db user investmentId updateText env :
  putProgress db user investmentId (js "100") updateText env
  = putProgress_try db investmentId 100 updateText env.
Proof. reflexivity. Qed.

(** A progress of 100 on a record that is not yet harvested, in a state
    that satisfies the invariant and with a payout hash not yet in the
    ledger: one "payout" entry is appended and the record is stored with
    its payout fields.  The call is answered 500: the record carries its
    snapshot, and the response does not get built. *)
Lemma putProgress_try_first_100 db investmentId inv env :
  Inv db ->
  findById Investment._id investmentId (investments db) = Some inv ->
  Investment.status inv <> Investment.harvested ->
  hash_used (generateSimulatedTxHash "sim_payout" env) (transactions db)
  = false ->
  exists roi db1 t,
    putProgress_try db investmentId 100 None env = (ServerError, db1)
    /\ Investment.roi_of inv = Some roi
    /\ transactions db1 = transactions db ++ [t]
    /\ Transaction.type t = Transaction.payout
    /\ Transaction.txHash t = generateSimulatedTxHash "sim_payout" env
    /\ Transaction.amount t = (Investment.amount inv * (roi / 100))%Q
    /\ Transaction.userId t = Investment.investorWallet inv
    /\ investments db1
       = replaceOne Investment._id (harvestedRecord inv roi env)
           (investments db).
Proof.
  intros HI Hf Hs Hfresh.
  pose proof (invOK_found _ _ _ HI Hf) as ((roi & Hroi & Hroi0) & Hamt & Hst).
  unfold putProgress_try. rewrite Hf.
  destruct inv as [id w pid snap amt st prog date h pa pd ph pn].
  unfold Investment.roi_of in Hroi. simpl in Hroi, Hamt, Hst, Hs.
  destruct snap as [s|]; [|discriminate]. simpl in Hroi.
  injection Hroi as <-.
  exists (Investment.roi s).
  assert (forall d b,
            fundingRequests d = fundingRequests db ->
            exists d',
              checkProjectCompleted d b = inr d'
              /\ transactions d' = transactions d
              /\ investments d' = investments d) as Hcheck.
  { intros d b Hd.
    destruct (checkProjectCompleted_valid d b) as (d' & Hd').
    - rewrite Hd. intros fr Hfr. now destruct (frOK_found _ _ _ HI Hfr).
    - exists d'. split; [exact Hd'|].
      now apply checkProjectCompleted_frame in Hd'. }
  destruct st; try contradiction; try congruence; subst pn;
    cbn -[generateSimulatedTxHash checkProjectCompleted Qmult Qdiv];
    unfold Transaction_insert;
    cbn -[generateSimulatedTxHash checkProjectCompleted Qmult Qdiv];
    rewrite (payout_not_negative _ _ Hamt Hroi0), Hfresh;
    cbn -[generateSimulatedTxHash checkProjectCompleted Qmult Qdiv];
    unfold Investment_save, Investment.validate;
    cbn -[generateSimulatedTxHash checkProjectCompleted Qmult Qdiv];
    rewrite Hamt;
    cbn -[generateSimulatedTxHash checkProjectCompleted Qmult Qdiv].
  all: destruct (findById FundingRequest._id pid (fundingRequests db)) as [p|];
    cbn -[generateSimulatedTxHash checkProjectCompleted Qmult Qdiv].
  all: try match goal with
       | |- context [checkProjectCompleted ?d ?i] =>
           destruct (Hcheck d i eq_refl) as (d' & -> & Ht' & Hi')
       end.
  all: rewrite (formatInvestment_snapshot _ _ s) by reflexivity.
  all: do 2 eexists; (split; [reflexivity|]).
  all: try rewrite Ht', Hi'.
  all: repeat split; reflexivity.
Qed.

Lemma payoutEntries_none h txs :
  ~ In h (map Transaction.txHash txs) ->
  filter (fun t => Transaction.Type_eqb (Transaction.type t) Transaction.payout
                   && seqb (Transaction.txHash t) h) txs = [].
Proof.
  induction txs as [|x txs IH]; simpl; [reflexivity|].
  intros H. destruct (seqb_spec (Transaction.txHash x) h) as [E|E].
  - exfalso. apply H. now left.
  - rewrite andb_false_r. apply IH. tauto.
Qed.

Lemma payoutEntries_one db t :
  NoDup (map Transaction.txHash (transactions db)) ->
  In t (transactions db) ->
  Transaction.type t = Transaction.payout ->
  List.length (payoutEntries (Transaction.txHash t) db) = 1%nat.
Proof.
  unfold payoutEntries. induction (transactions db) as [|x txs IH]; simpl.
  - intros _ [].
  - intros Hn [->|Hin] Hty; inversion_clear Hn as [|? ? Hx Hn'].
    + rewrite Hty, seqb_refl. simpl.
      now rewrite payoutEntries_none.
    + destruct (seqb_spec (Transaction.txHash x) (Transaction.txHash t))
        as [E|E].
      * exfalso. apply Hx. rewrite E. now apply in_map.
      * rewrite andb_false_r. now apply IH.
Qed.

Lemma roi_of_snapshot inv roi :
  Investment.roi_of inv = Some roi ->
  exists snap, Investment.snapshot inv = Some snap.
Proof.
  unfold Investment.roi_of. destruct (Investment.snapshot inv) as [snap|];
    [eauto|discriminate].
Qed.

(** C8 (the code departs from the claim).  In every reachable state and
    for every investment record of it, two progress updates to 100 in a
    row (without update text, the payout hash of the first not yet in the
    ledger) leave the store as the claim says: the record is [harvested]
    with [payoutNotified] set and its payout fields written by the first
    call alone, the ledger holds exactly one "payout" entry with the
    record's payout hash, and the second call changes nothing.  But
    neither call succeeds: each is answered 500, after its writes. *)
Theorem updateProgress_100_twice db user1 user2 investmentId inv env1 env2 :
  reachable db ->
  findById Investment._id investmentId (investments db) = Some inv ->
  hash_used (generateSimulatedTxHash "sim_payout" env1) (transactions db)
  = false ->
  let (r1, db1) := putProgress db user1 investmentId (js "100") None env1 in
  let (r2, db2) := putProgress db1 user2 investmentId (js "100") None env2 in
  r1 = ServerError /\ r2 = ServerError
  /\ db2 = db1
  /\ ((Investment.status inv = Investment.harvested
       /\ transactions db1 = transactions db)
      \/ (Investment.status inv <> Investment.harvested
          /\ exists t,
               transactions db1 = transactions db ++ [t]
               /\ Transaction.type t = Transaction.payout
               /\ Transaction.userId t = Investment.investorWallet inv
               /\ Transaction.txHash t
                  = generateSimulatedTxHash "sim_payout" env1))
  /\ exists inv2 h,
       findById Investment._id investmentId (investments db2) = Some inv2
       /\ Investment.status inv2 = Investment.harvested
       /\ Investment.payoutNotified inv2 = true
       /\ Investment.payoutTxHash inv2 = Some h
       /\ List.length (payoutEntries h db2) = 1%nat.
Proof.
  intros R Hf Hfresh.
  pose proof (reachable_Inv db R) as HI.
  pose proof (findById_key _ _ _ _ Hf) as Hid. subst investmentId.
  pose proof (invOK_found _ _ _ HI Hf) as ((roi & Hroi & Hroi0) & Hamt & Hst).
  destruct (roi_of_snapshot _ _ Hroi) as (snap & Hsnap).
  rewrite putProgress_100.
  pose proof (Inv_putProgress_try db (Investment._id inv) 100 None env1 HI)
    as HI1.
  destruct (Investment.Status_eqb (Investment.status inv) Investment.harvested)
    eqn:Hs.
  - (* already harvested *)
    assert (Investment.status inv = Investment.harvested) as Hh
      by (destruct (Investment.status inv); now try discriminate).
    rewrite (putProgress_try_harvested_100 _ _ _ _ Hf Hh Hamt) in *.
    set (inv1 := Investment.set_progress 100 inv) in *.
    assert (Investment.snapshot inv1 = Some snap) as Hsnap1
      by (subst inv1; destruct inv; exact Hsnap).
    rewrite (formatInvestment_snapshot _ _ _ Hsnap1) in *.
    cbn [snd] in HI1.
    assert (Investment._id inv1 = Investment._id inv) as Hid1
      by (subst inv1; now destruct inv).
    set (db1 := set_investments _ db) in *.
    assert (findById Investment._id (Investment._id inv) (investments db1)
            = Some inv1) as Hf1.
    { subst db1. simpl. rewrite <- Hid1.
      apply findById_replaceOne with (x := inv). now rewrite Hid1. }
    rewrite putProgress_100.
    rewrite (putProgress_try_resubmit_100 _ _ inv1 _ Hf1)
      by (subst inv1; destruct inv; simpl in *; auto).
    rewrite (formatInvestment_snapshot _ _ _ Hsnap1).
    rewrite Hh in Hst.
    destruct Hst as (Hn & h & roi' & Hph & _ & _ & t & Hin & Hth & Hty).
    repeat split; auto.
    exists inv1, h. subst inv1.
    repeat split; try exact Hf1; try (destruct inv; simpl in *; assumption).
    rewrite <- Hth. apply payoutEntries_one; [apply HI1|exact Hin|exact Hty].
  - (* harvested by the first call *)
    assert (Investment.status inv <> Investment.harvested) as Hh
      by (intros E; rewrite E in Hs; discriminate).
    destruct (putProgress_try_first_100 db _ inv env1 HI Hf Hh Hfresh)
      as (roi' & db1 & t & E1 & Hroi' & Ht & Hty & Hth & _ & Hu & Hi1).
    rewrite E1 in *. cbn [snd] in HI1.
    set (inv1 := harvestedRecord inv roi' env1) in *.
    assert (Investment._id inv1 = Investment._id inv) as Hid1
      by (subst inv1; now destruct inv).
    assert (Investment.snapshot inv1 = Some snap) as Hsnap1
      by (subst inv1; destruct inv; exact Hsnap).
    assert (findById Investment._id (Investment._id inv) (investments db1)
            = Some inv1) as Hf1.
    { rewrite Hi1, <- Hid1.
      apply findById_replaceOne with (x := inv). now rewrite Hid1. }
    rewrite putProgress_100.
    rewrite (putProgress_try_resubmit_100 _ _ inv1 _ Hf1)
      by (subst inv1; destruct inv; simpl in *; auto).
    rewrite (formatInvestment_snapshot _ _ _ Hsnap1).
    repeat split; auto.
    + right. split; [exact Hh|]. now exists t.
    + exists inv1, (generateSimulatedTxHash "sim_payout" env1).
      repeat split; try exact Hf1;
        try (subst inv1; now destruct inv).
      rewrite <- Hth. apply payoutEntries_one; [apply HI1| |exact Hty].
      rewrite Ht. apply in_or_app. right. now left.
Qed.

(** The scenario: Alice's record, [active] after her investment, is set to
    100 twice. *)
Lemma updateProgress_100_twice_witness :
  let (r1, db1) :=
    putProgress Scenario.db_invested Scenario.alice 1 (js "100") None
      (Scenario.at_ 2000 "c") in
  let (r2, db2) :=
    putProgress db1 Scenario.alice 1 (js "100") None (Scenario.at_ 3000 "d") in
  r1 = ServerError /\ r2 = ServerError
  /\ db2 = db1
  /\ List.length (transactions db2)
     = S (List.length (transactions Scenario.db_invested)).
Proof.
  pose proof
    (updateProgress_100_twice Scenario.db_invested Scenario.alice
       Scenario.alice 1%N
       (Investment.mk 1 2 0
          (Some (snapshot_of
                   (invested 50
                      (pushedEntry Scenario.alice 50 (Scenario.at_ 1000 "b"))
                      Scenario.wheatRequest)))
          50 Investment.active 0 1000 (js "sim_invest_b") None None None false)
       (Scenario.at_ 2000 "c") (Scenario.at_ 3000 "d")
       (ex_intro _ Scenario.vs
          (ex_intro _ Scenario.funded_by_alice eq_refl))
       eq_refl eq_refl) as H.
  destruct (putProgress Scenario.db_invested _ _ _ _ _) as [r1 db1].
  destruct (putProgress db1 _ _ _ _ _) as [r2 db2].
  destruct H as (H1 & H2 & H3 & [[Hh _]|(_ & t & Ht & _)] & _).
  - discriminate Hh.
  - repeat split; auto.
    rewrite H3, Ht, length_app. simpl. lia.
Defined.

(** C9, counterexample.  A progress of 100.5, outside 0..100, is not
    answered with a validation error: [parseInt] reads it as 100 (as it
    does [100abc]), and Alice's record is stored [harvested] with progress
    100 and its payout entered in the ledger. *)
Lemma progress_outside_range_accepted_counterexample :
  parseInt (js "100.5") = Some 100%Z
  /\ parseInt (js "100abc") = Some 100%Z
  /\ let (resp, db') :=
       putProgress Scenario.db_invested Scenario.alice 1 (js "100.5") None
         (Scenario.at_ 2000 "c") in
     (forall why, resp <> BadRequest why)
     /\ map (fun i => (Investment.progress i, Investment.status i))
          (investments db') = [(100%Z, Investment.harvested)]
     /\ map Transaction.type (transactions db')
        = [Transaction.investment; Transaction.payout].
Proof.
  split; [reflexivity|]. split; [reflexivity|].
  vm_compute. repeat split. discriminate.
Qed.

(** C9, as amended.  The progress is taken as [parseInt] reads it.  When
    that is no number, or a number outside 0..100, the call is answered
    400 ("Invalid progress value") before any read.  When it is within
    0..100, an update on a [cancelled] record, or on a [harvested] record
    with a progress below 100, is answered 400 ("Cannot update progress for
    investment in terminal state"), and nothing is written.  The one
    update a terminal record does not reject is 100 on a [harvested]
    record: without update text it writes the record back with progress
    100, which leaves the database as it is when the progress was 100
    already. *)
Theorem progress_update_rejections db user investmentId progress updateText env :
  (match parseInt progress with
   | None => True
   | Some p => (p < 0)%Z \/ (100 < p)%Z
   end ->
   putProgress db user investmentId progress updateText env
   = (BadRequest InvalidProgress, db))
  /\ (forall p inv,
        parseInt progress = Some p ->
        (0 <= p <= 100)%Z ->
        findById Investment._id investmentId (investments db) = Some inv ->
        (Investment.status inv = Investment.cancelled
         \/ (Investment.status inv = Investment.harvested /\ (p < 100)%Z) ->
         putProgress db user investmentId progress updateText env
         = (BadRequest TerminalInvestment, db))
        /\ (Investment.status inv = Investment.harvested ->
            p = 100%Z -> updateText = None ->
            Qle_bool 0 (Investment.amount inv) = true ->
            (forall why,
               fst (putProgress db user investmentId progress updateText env)
               <> BadRequest why)
            /\ snd (putProgress db user investmentId progress updateText env)
               = set_investments
                   (replaceOne Investment._id
                      (Investment.set_progress 100 inv) (investments db)) db
            /\ (Investment.progress inv = 100%Z ->
                snd (putProgress db user investmentId progress updateText env)
                = db))).
Proof.
  split.
  - unfold putProgress. destruct (parseInt progress) as [p|]; [|reflexivity].
    intros Hp.
    assert ((p <? 0)%Z || (100 <? p)%Z = true) as ->; [|reflexivity].
    apply orb_true_iff. destruct Hp; [left|right]; now apply Z.ltb_lt.
  - intros p inv Hparse Hp Hf. unfold putProgress. rewrite Hparse.
    assert ((p <? 0)%Z || (100 <? p)%Z = false) as ->.
    { apply orb_false_iff. split; apply Z.ltb_ge; lia. }
    split.
    + intros Hs. unfold putProgress_try.
      rewrite Hf. destruct Hs as [->|[-> Hlt]]; simpl.
      * now rewrite orb_true_r.
      * apply Z.ltb_lt in Hlt. now rewrite Hlt.
    + intros Hs -> -> Ha.
      rewrite (putProgress_try_harvested_100 _ _ _ _ Hf Hs Ha).
      split; [|split].
      * intros why. now destruct (formatInvestment _ _).
      * reflexivity.
      * intros H100.
        rewrite <- (putProgress_try_harvested_100 _ _ _ _ Hf Hs Ha).
        now rewrite (putProgress_try_resubmit_100 _ _ _ _ Hf Hs H100 Ha).
Qed.

(** The scenario: Alice's harvested record is sent 101, 40 and 100. *)
Lemma progress_update_rejections_witness :
  putProgress Scenario.db_harvested Scenario.alice 1 (js "101") None
    (Scenario.at_ 3000 "d")
  = (BadRequest InvalidProgress, Scenario.db_harvested)
  /\ putProgress Scenario.db_harvested Scenario.alice 1 (js "40") None
       (Scenario.at_ 3000 "d")
     = (BadRequest TerminalInvestment, Scenario.db_harvested)
  /\ snd (putProgress Scenario.db_harvested Scenario.alice 1 (js "100") None
            (Scenario.at_ 3000 "d"))
     = Scenario.db_harvested.
Proof.
  pose (inv := harvestedRecord
                 (Investment.mk 1 2 0
                    (Some (snapshot_of
                             (invested 50
                                (pushedEntry Scenario.alice 50
                                   (Scenario.at_ 1000 "b"))
                                Scenario.wheatRequest)))
                    50 Investment.active 0 1000 (js "sim_invest_b") None None
                    None false)
                 15 (Scenario.at_ 2000 "c")).
  assert (findById Investment._id 1%N (investments Scenario.db_harvested)
          = Some inv) as Hfind by (vm_compute; reflexivity).
  assert ((0 <= 40 <= 100)%Z) as H40 by (split; discriminate).
  assert ((0 <= 100 <= 100)%Z) as H100 by (split; discriminate).
  split; [|split].
  - exact (proj1 (progress_update_rejections Scenario.db_harvested
                    Scenario.alice 1%N (js "101") None (Scenario.at_ 3000 "d"))
             (or_intror eq_refl)).
  - exact (proj1 (proj2 (progress_update_rejections Scenario.db_harvested
                           Scenario.alice 1%N (js "40") None
                           (Scenario.at_ 3000 "d")) 40%Z inv eq_refl H40 Hfind)
             (or_intror (conj eq_refl eq_refl))).
  - exact (proj2 (proj2 (proj2 (proj2 (progress_update_rejections
                                  Scenario.db_harvested Scenario.alice 1%N
                                  (js "100") None (Scenario.at_ 3000 "d"))
                           100%Z inv eq_refl H100 Hfind)
                           eq_refl eq_refl eq_refl eq_refl)) eq_refl).
Defined.

(** * Further properties of the handlers *)

(** ** Comparisons on amounts *)

Lemma Qltb_lt x y : Qltb x y = true <-> (x < y)%Q.
Proof.
  unfold Qltb. rewrite negb_true_iff. split.
  - intros H. apply Qnot_le_lt. intros H'. apply Qle_bool_iff in H'. congruence.
  - intros H. destruct (Qle_bool y x) eqn:E; [|reflexivity].
    apply Qle_bool_iff in E. lra.
Qed.

Lemma Qltb_ge x y : Qltb x y = false <-> (y <= x)%Q.
Proof.
  unfold Qltb. rewrite negb_false_iff. apply Qle_bool_iff.
Qed.

Lemma Qle_bool_gt x y : Qle_bool x y = false <-> (y < x)%Q.
Proof.
  split.
  - intros H. apply Qnot_le_lt. intros H'. apply Qle_bool_iff in H'. congruence.
  - intros H. destruct (Qle_bool x y) eqn:E; [|reflexivity].
    apply Qle_bool_iff in E. lra.
Qed.

(** ** The save hook of a funding request *)

(** X1.  Running the hook a second time changes nothing: a document that
    has been saved is a fixed point of the hook. *)
Theorem pre_save_idempotent (d : FundingRequest.t) :
  FundingRequest.pre_save (FundingRequest.pre_save d) = FundingRequest.pre_save d.
Proof.
  destruct d as [id fw ti cr ac am me de tl ro sh ci fa st ca inv up].
  unfold FundingRequest.pre_save. simpl.
  destruct (Qltb am fa) eqn:E1; simpl.
  - assert (Qle_bool am am = true) as Hr by (apply Qle_bool_iff; lra).
    assert (Qltb am am = false) as Hl by (apply Qltb_ge; lra).
    rewrite Hr. simpl. rewrite Hl. simpl. rewrite Hr. reflexivity.
  - destruct (Qle_bool am fa) eqn:E2; simpl.
    + rewrite E1. simpl. rewrite E2. reflexivity.
    + destruct (Qltb 0 fa) eqn:E3; simpl; rewrite E1; simpl; rewrite E2, E3;
        reflexivity.
Qed.

(** X2.  What the hook leaves: the funded amount is at most the requested
    amount, and the status is the one the amounts determine -- [funded]
    exactly when the two amounts are equal, [partially_funded] exactly when
    the funded amount is strictly between 0 and the requested amount,
    [pending] exactly when it is at most 0 and below the requested
    amount. *)
Theorem pre_save_establishes (d : FundingRequest.t) :
  let d' := FundingRequest.pre_save d in
  (FundingRequest.fundedAmount d' <= FundingRequest.amount d')%Q
  /\ (FundingRequest.status d' = FundingRequest.funded
      <-> FundingRequest.fundedAmount d' == FundingRequest.amount d')
  /\ (FundingRequest.status d' = FundingRequest.partially_funded
      <-> (0 < FundingRequest.fundedAmount d'
           /\ FundingRequest.fundedAmount d' < FundingRequest.amount d')%Q)
  /\ (FundingRequest.status d' = FundingRequest.pending
      <-> (FundingRequest.fundedAmount d' <= 0
           /\ FundingRequest.fundedAmount d' < FundingRequest.amount d')%Q).
Proof.
  destruct d as [id fw ti cr ac am me de tl ro sh ci fa st ca inv up].
  unfold FundingRequest.pre_save. simpl.
  destruct (Qltb am fa) eqn:E1; simpl.
  - assert (Qle_bool am am = true) as -> by (apply Qle_bool_iff; lra).
    simpl. repeat split; intros; try discriminate; try lra.
  - apply Qltb_ge in E1.
    destruct (Qle_bool am fa) eqn:E2; simpl.
    + apply Qle_bool_iff in E2.
      repeat split; intros; try discriminate; try lra.
    + apply Qle_bool_gt in E2.
      destruct (Qltb 0 fa) eqn:E3; simpl;
        [apply Qltb_lt in E3|apply Qltb_ge in E3];
        repeat split; intros; try discriminate; try lra.
Qed.

(** The hook reads the amounts only: the status the document had, and so
    the status a handler has just assigned, does not reach the store. *)
Lemma pre_save_set_status s d :
  FundingRequest.pre_save (FundingRequest.set_status s d)
  = FundingRequest.pre_save d.
Proof.
  destruct d. unfold FundingRequest.pre_save. simpl.
  destruct (Qltb _ _); simpl; destruct (Qle_bool _ _); simpl;
    try destruct (Qltb 0 _); reflexivity.
Qed.

(** ** [PUT /api/funding-requests/:id] *)

(** X3.  In a reachable state the owner's PUT with a status and no update
    text stores the request as the hook derives it from the amounts: the
    status sent in the body is not what is stored, and two different
    statuses give the same store.  The call is answered 200 on Mongoose 5
    and 500, after the save, from Mongoose 6 on. *)
Theorem put_status_stores_derived db user requestId s env r :
  reachable db ->
  findById FundingRequest._id requestId (fundingRequests db) = Some r ->
  FundingRequest.farmerWallet r = User._id user ->
  putFundingRequest db user requestId None (Some s) env
  = (if chainedPopulate env then Ok else ServerError,
     set_fundingRequests
       (replaceOne FundingRequest._id (FundingRequest.pre_save r)
          (fundingRequests db)) db)
  /\ findById FundingRequest._id requestId
       (fundingRequests
          (snd (putFundingRequest db user requestId None (Some s) env)))
     = Some (FundingRequest.pre_save r).
Proof.
  intros R Hf Ho.
  destruct (frOK_found _ _ _ (reachable_Inv db R) Hf) as [Hst Hval].
  assert (putFundingRequest db user requestId None (Some s) env
          = (if chainedPopulate env then Ok else ServerError,
             set_fundingRequests
               (replaceOne FundingRequest._id (FundingRequest.pre_save r)
                  (fundingRequests db)) db)) as E.
  { unfold putFundingRequest, falsy, nonblank.
    rewrite Hf, Ho, N.eqb_refl. cbn [andb negb].
    assert ((FundingRequest.Status_eqb (FundingRequest.status r)
               FundingRequest.cancelled
             || FundingRequest.Status_eqb (FundingRequest.status r)
                  FundingRequest.completed)
            && negb (FundingRequest.Status_eqb s (FundingRequest.status r))
            = false) as ->.
    { destruct Hst as [E|[E|E]]; rewrite E; reflexivity. }
    unfold FundingRequest_save.
    rewrite validate_set_status, Hval, pre_save_set_status.
    now destruct (chainedPopulate env). }
  split; [exact E|]. rewrite E. simpl.
  pose proof (findById_key _ _ _ _ Hf) as Hid.
  rewrite <- Hid, <- (pre_save_id r).
  apply findById_replaceOne with (x := r).
  now rewrite pre_save_id, Hid.
Qed.

(** The scenario: the farmer marks the request, funded in full by Alice,
    as [pending]. *)
Lemma put_status_stores_derived_witness :
  option_map FundingRequest.status
    (Scenario.project
       (snd (putFundingRequest Scenario.db_invested Scenario.farmerUser 0 None
               (Some FundingRequest.pending) (Scenario.at_ 5000 "e"))))
  = Some FundingRequest.funded.
Proof.
  pose proof
    (put_status_stores_derived Scenario.db_invested Scenario.farmerUser 0%N
       FundingRequest.pending (Scenario.at_ 5000 "e")
       (invested 50 (pushedEntry Scenario.alice 50 (Scenario.at_ 1000 "b"))
          Scenario.wheatRequest)
       (ex_intro _ Scenario.vs (ex_intro _ Scenario.funded_by_alice eq_refl))
       eq_refl eq_refl) as [_ H].
  unfold Scenario.project. rewrite H. reflexivity.
Defined.

Lemma nonblank_not_falsy text :
  nonblank (Some text) = true -> falsy (Some text) = false.
Proof.
  simpl. destruct (seqb_spec text []) as [->|]; [discriminate|reflexivity].
Qed.

(** A document with an update object that has no [id] does not pass
    validation. *)
Lemma validate_pushed d u :
  FundingRequest.update_valid u = false ->
  FundingRequest.validate
    (FundingRequest.set_updates (FundingRequest.updates d ++ [u]) d) = false.
Proof.
  intros H. destruct d. unfold FundingRequest.validate.
  cbn [FundingRequest.set_updates FundingRequest.updates].
  rewrite forallb_app. cbn [forallb]. rewrite H.
  cbn [andb]. rewrite andb_false_r. apply andb_false_r.
Qed.

(** X4.  The owner's PUT with a non-blank update text never stores the
    update: the object pushed onto [updates] has [_id], [date] and [text]
    but not the [id] the schema requires, so the save is refused and the
    call is answered 400.  The requests, the records and the ledger are as
    before; the notifications to the project's investors, sent before the
    save, stay. *)
Theorem put_update_text_rejected db user requestId text status env r :
  findById FundingRequest._id requestId (fundingRequests db) = Some r ->
  FundingRequest.farmerWallet r = User._id user ->
  nonblank (Some text) = true ->
  let (resp, db') :=
    putFundingRequest db user requestId (Some text) status env in
  (exists why, resp = BadRequest why)
  /\ fundingRequests db' = fundingRequests db
  /\ investments db' = investments db
  /\ transactions db' = transactions db
  /\ notifications db'
     = notifications db ++ updateNotifications requestId db.
Proof.
  intros Hf Ho Hn. unfold putFundingRequest.
  rewrite (nonblank_not_falsy _ Hn), Hf, Ho, N.eqb_refl, Hn.
  cbn [andb negb].
  unfold FundingRequest_save.
  destruct status as [s|]; [destruct (_ && _)|];
    try rewrite validate_set_status;
    try rewrite validate_pushed by reflexivity;
    cbn [caught];
    (split; [eexists; reflexivity|repeat split]).
Qed.

(** The scenario: the farmer posts a note on the request Alice funded. *)
Lemma put_update_text_rejected_witness :
  let (resp, db') :=
    putFundingRequest Scenario.db_invested Scenario.farmerUser 0
      (Some (js "Planting complete")) None (Scenario.at_ 5000 "e") in
  resp = BadRequest ValidationError
  /\ fundingRequests db' = fundingRequests Scenario.db_invested.
Proof.
  pose proof
    (put_update_text_rejected Scenario.db_invested Scenario.farmerUser 0%N
       (js "Planting complete") None (Scenario.at_ 5000 "e")
       (invested 50 (pushedEntry Scenario.alice 50 (Scenario.at_ 1000 "b"))
          Scenario.wheatRequest)
       eq_refl eq_refl eq_refl) as H.
  destruct (putFundingRequest _ _ _ _ _ _) as [resp db'] eqn:E.
  destruct H as (_ & H & _). split; [|exact H].
  assert (resp = fst (putFundingRequest Scenario.db_invested
                        Scenario.farmerUser 0
                        (Some (js "Planting complete")) None
                        (Scenario.at_ 5000 "e"))) as -> by now rewrite E.
  reflexivity.
Defined.

(** ** More on the collection primitives *)

Section CollectionFacts2.

Context {A : Type} (key : A -> ObjectId).

Lemma findById_replaceOne_other (d : A) (i : ObjectId) (c : list A) :
  key d <> i -> findById key i (replaceOne key d c) = findById key i c.
Proof.
  intros Hd. induction c as [|x c IH]; simpl; [reflexivity|].
  destruct (key x =? key d)%N eqn:E; simpl.
  - apply N.eqb_eq in E.
    destruct (N.eqb_spec (key d) i); [contradiction|].
    destruct (N.eqb_spec (key x) i); [congruence|reflexivity].
  - destruct (key x =? i)%N; [reflexivity|exact IH].
Qed.

Lemma In_replaceOne (d x : A) (c : list A) :
  In x (replaceOne key d c) -> x = d \/ In x c.
Proof.
  induction c as [|y c IH]; simpl; [tauto|].
  destruct (key y =? key d)%N; simpl.
  - intros [<-|H]; auto.
  - intros [<-|H]; auto. destruct (IH H); auto.
Qed.

Lemma replaceOne_In (d x : A) (c : list A) (r : A) :
  findById key (key d) c = Some r ->
  In x c -> (x = r /\ In d (replaceOne key d c)) \/ In x (replaceOne key d c).
Proof.
  induction c as [|y c IH]; simpl; [discriminate|].
  destruct (key y =? key d)%N; simpl.
  - intros [= ->] [->|H]; auto.
  - intros Hf [->|H]; auto.
    destruct (IH Hf H) as [[-> ?]|?]; auto.
Qed.

Lemma map_replaceOne {B} (f : A -> B) (d r : A) (c : list A) :
  findById key (key d) c = Some r -> f d = f r ->
  map f (replaceOne key d c) = map f c.
Proof.
  intros Hf Hd. revert Hf. induction c as [|y c IH]; simpl; [reflexivity|].
  destruct (key y =? key d)%N; simpl.
  - intros [= ->]. now rewrite Hd.
  - intros Hf. now rewrite IH.
Qed.

Lemma map_key_replaceOne (d : A) (c : list A) :
  map key (replaceOne key d c) = map key c.
Proof.
  induction c as [|y c IH]; simpl; [reflexivity|].
  destruct (key y =? key d)%N eqn:E; simpl.
  - apply N.eqb_eq in E. now rewrite E.
  - now rewrite IH.
Qed.

Lemma findById_app (i : ObjectId) (c c' : list A) (x : A) :
  findById key i c = Some x -> findById key i (c ++ c') = Some x.
Proof.
  induction c as [|y c IH]; simpl; [discriminate|].
  destruct (key y =? i)%N; auto.
Qed.

Lemma findById_deleteOne_other (i j : ObjectId) (c : list A) :
  i <> j -> findById key j (deleteOne key i c) = findById key j c.
Proof.
  intros Hij. induction c as [|y c IH]; simpl; [reflexivity|].
  destruct (N.eqb_spec (key y) i) as [E|E]; simpl.
  - destruct (N.eqb_spec (key y) j); [congruence|reflexivity].
  - destruct (key y =? j)%N; [reflexivity|exact IH].
Qed.

Lemma In_deleteOne (i : ObjectId) (x : A) (c : list A) :
  In x (deleteOne key i c) -> In x c.
Proof.
  induction c as [|y c IH]; simpl; [tauto|].
  destruct (key y =? i)%N; simpl; [auto|].
  intros [<-|H]; auto.
Qed.

Lemma map_deleteOne_incl {B} (f : A -> B) (i : ObjectId) (c : list A) :
  NoDup (map f c) -> NoDup (map f (deleteOne key i c)).
Proof.
  induction c as [|y c IH]; simpl; [auto|].
  intros H. inversion_clear H as [|? ? Hy Hc].
  destruct (key y =? i)%N; simpl; [exact Hc|].
  constructor; [|now apply IH].
  intros Hin. apply Hy. apply in_map_iff in Hin as (z & Hz & Hin).
  apply in_map_iff. exists z. split; [exact Hz|]. now apply In_deleteOne in Hin.
Qed.

Lemma length_deleteOne (i : ObjectId) (c : list A) (r : A) :
  findById key i c = Some r ->
  S (List.length (deleteOne key i c)) = List.length c.
Proof.
  induction c as [|y c IH]; simpl; [discriminate|].
  destruct (key y =? i)%N; simpl; [reflexivity|].
  intros H. now rewrite IH.
Qed.

End CollectionFacts2.

Lemma findByIdAndUpdate_replaceOne i a e c p x' c' :
  findById FundingRequest._id i c = Some p ->
  findByIdAndUpdate i a e c = Some (x', c') ->
  x' = invested a e p
  /\ c' = replaceOne FundingRequest._id (invested a e p) c.
Proof.
  revert c'. induction c as [|x c IH]; simpl; [discriminate|].
  intros c'. destruct (N.eqb_spec (FundingRequest._id x) i) as [E|E].
  - intros [= ->] [= <- <-]. split; [reflexivity|].
    simpl. now rewrite E, N.eqb_refl.
  - intros Hp. destruct (findByIdAndUpdate i a e c) as [[y c'']|];
      [|discriminate].
    intros [= <- <-]. destruct (IH c'' Hp eq_refl) as [-> ->].
    split; [reflexivity|]. simpl.
    pose proof (findById_key _ _ _ _ Hp) as Hk.
    destruct (N.eqb_spec (FundingRequest._id x) (FundingRequest._id p));
      [congruence|reflexivity].
Qed.

(** ** The store stays sound *)

Ltac hook_cases :=
  unfold FundingRequest.pre_save;
  destruct (Qltb _ _); simpl; destruct (Qle_bool _ _); simpl;
  try destruct (Qltb 0 _); reflexivity.

Lemma pre_save_cid d :
  FundingRequest.cid (FundingRequest.pre_save d) = FundingRequest.cid d.
Proof. hook_cases. Qed.

Lemma pre_save_investors d :
  FundingRequest.investors (FundingRequest.pre_save d)
  = FundingRequest.investors d.
Proof. hook_cases. Qed.

Lemma pre_save_snapshot d :
  snapshot_of (FundingRequest.pre_save d) = snapshot_of d.
Proof. unfold snapshot_of. hook_cases. Qed.

Lemma frSound_pre_save vs d : frSound vs d -> frSound vs (FundingRequest.pre_save d).
Proof.
  destruct d as [id fw ti cr ac am me de tl ro sh ci fa st ca inv up].
  unfold frSound, pledged, FundingRequest.pre_save. simpl.
  intros (H0 & Hz & Hp & Ha & Hr & Hv).
  destruct (Qltb am fa) eqn:E1; simpl.
  - apply Qltb_lt in E1.
    destruct (Qle_bool am am); simpl; try destruct (Qltb 0 am); simpl;
      (repeat split; auto; try lra; intros Hi;
       try (specialize (Hz Hi)); try (specialize (Hp Hi)); lra).
  - destruct (Qle_bool am fa); simpl; try destruct (Qltb 0 fa); simpl;
      repeat split; auto.
Qed.

Lemma frSound_ext vs r d :
  FundingRequest.fundedAmount d = FundingRequest.fundedAmount r ->
  FundingRequest.investors d = FundingRequest.investors r ->
  FundingRequest.amount d = FundingRequest.amount r ->
  FundingRequest.roi d = FundingRequest.roi r ->
  FundingRequest.cid d = FundingRequest.cid r ->
  FundingRequest.farmerWallet d = FundingRequest.farmerWallet r ->
  frSound vs r -> frSound vs d.
Proof.
  unfold frSound, pledged.
  intros -> -> -> -> -> ->. exact (fun H => H).
Qed.

Lemma frSound_invested vs a e p :
  (0 < a)%Q ->
  frSound vs p -> frSound vs (invested a e p).
Proof.
  intros Ha (H0 & Hz & Hp & Ham & Hr & Hv).
  unfold frSound, pledged, invested. simpl.
  repeat split; auto; try lra.
  intros E. now apply app_eq_nil in E as [_ E].
Qed.

Lemma Sound_replace db r d' :
  Sound db ->
  findById FundingRequest._id (FundingRequest._id d') (fundingRequests db)
  = Some r ->
  frSound (videos db) d' ->
  FundingRequest.cid d' = FundingRequest.cid r ->
  snapshot_of d' = snapshot_of r ->
  (FundingRequest.investors r <> [] -> FundingRequest.investors d' <> []) ->
  Sound (set_fundingRequests
           (replaceOne FundingRequest._id d' (fundingRequests db)) db).
Proof.
  intros (Hf & Hn & Hi & Ht) Hr Hd Hcid Hsnap Hinv.
  rename r into r0.
  unfold Sound. simpl. repeat split.
  - now apply Forall_replaceOne.
  - now rewrite (map_replaceOne _ _ _ _ _ Hr Hcid).
  - eapply Forall_impl; [|exact Hi]. intros i (p & Hp & Hs & Hne).
    destruct (N.eq_dec (FundingRequest._id d') (Investment.projectId i))
      as [E|E].
    + rewrite <- E in Hp. rewrite Hr in Hp. injection Hp as <-.
      exists d'.
      split; [rewrite <- E; now apply findById_replaceOne with (x := r0)|].
      split; [now rewrite Hsnap|auto].
    + exists p. split; [now rewrite findById_replaceOne_other|auto].
  - exact Ht.
Qed.

Lemma Sound_FundingRequest_save d r db d' db' :
  FundingRequest_save d db = inr (d', db') ->
  findById FundingRequest._id (FundingRequest._id d) (fundingRequests db)
  = Some r ->
  FundingRequest.fundedAmount d = FundingRequest.fundedAmount r ->
  FundingRequest.investors d = FundingRequest.investors r ->
  FundingRequest.amount d = FundingRequest.amount r ->
  FundingRequest.roi d = FundingRequest.roi r ->
  FundingRequest.cid d = FundingRequest.cid r ->
  FundingRequest.farmerWallet d = FundingRequest.farmerWallet r ->
  snapshot_of d = snapshot_of r ->
  Sound db -> Sound db'.
Proof.
  unfold FundingRequest_save.
  destruct (FundingRequest.validate d); [|discriminate].
  intros [= <- <-] Hr E1 E2 E3 E4 E5 E6 E7 HS.
  apply Sound_replace with (r := r); auto.
  - now rewrite pre_save_id.
  - apply frSound_pre_save.
    apply frSound_ext with (r := r); auto.
    destruct HS as (Hf & _). rewrite Forall_forall in Hf.
    apply Hf. now apply findById_In in Hr.
  - now rewrite pre_save_cid.
  - now rewrite pre_save_snapshot.
  - now rewrite pre_save_investors, E2.
Qed.

Lemma Sound_deleteFundingRequest db user requestId :
  Sound db -> Sound (snd (deleteFundingRequest db user requestId)).
Proof.
  intros HS. unfold deleteFundingRequest.
  destruct (findById _ _ _) as [request|] eqn:Hr; [|exact HS].
  destruct (negb _); [exact HS|].
  destruct (Qltb _ _) eqn:Hq; [exact HS|].
  apply Qltb_ge in Hq.
  destruct HS as (Hf & Hn & Hi & Ht). unfold Sound. simpl. repeat split.
  - now apply Forall_deleteOne.
  - now apply map_deleteOne_incl.
  - eapply Forall_impl; [|exact Hi]. intros i (p & Hp & Hs & Hne).
    exists p. split; [|auto].
    rewrite findById_deleteOne_other; [exact Hp|].
    intros E. rewrite <- E in Hp. rewrite Hr in Hp. injection Hp as <-.
    rewrite Forall_forall in Hf.
    destruct (Hf request (findById_In _ _ _ _ Hr)) as (_ & _ & Hpos & _).
    specialize (Hpos Hne). lra.
  - exact Ht.
Qed.

Lemma Sound_putFundingRequest db user requestId updateText status env :
  Sound db ->
  Sound (snd (putFundingRequest db user requestId updateText status env)).
Proof.
  intros HS. unfold putFundingRequest.
  destruct (_ && _); [exact HS|].
  destruct (findById _ _ _) as [request|] eqn:Hr; [|exact HS].
  destruct (negb _); [exact HS|].
  pose proof (findById_key _ _ _ _ Hr) as Hk.
  assert (forall ns, Sound (notify ns db)) as HSn by (intros; exact HS).
  destruct (nonblank updateText); destruct status as [s|];
    try (destruct (_ && _); [first [apply HSn|exact HS]|]);
    (destruct (FundingRequest_save _ _) as [e|[d' db']] eqn:Hs;
     [first [apply HSn|exact HS]|]);
    (assert (Sound db');
     [ eapply Sound_FundingRequest_save with (r := request);
       [exact Hs| | | | | | | | |first [apply HSn|exact HS]];
       try reflexivity; simpl; now rewrite Hk
     | now destruct (chainedPopulate env) ]).
Qed.

Lemma entrySound_more invs d t : entrySound invs t -> entrySound (invs ++ [d]) t.
Proof.
  intros (Ha & Hi). split; [exact Ha|].
  intros Hty. destruct (Hi Hty) as (i & Hin & H). exists i.
  split; [apply in_or_app; now left|exact H].
Qed.

Lemma Sound_Transaction_insert t db db' :
  Transaction_insert t db = inr db' ->
  Sound db ->
  (Transaction.type t = Transaction.investment ->
   exists i,
     In i (investments db)
     /\ Investment.txHash i = Transaction.txHash t
     /\ Investment.amount i = Transaction.amount t
     /\ Investment.investorWallet i = Transaction.userId t
     /\ Transaction.projectId t = Some (Investment.projectId i)) ->
  Sound db'.
Proof.
  unfold Transaction_insert.
  destruct (Qltb _ 0) eqn:Hq; [discriminate|].
  destruct (hash_used _ _); [discriminate|].
  intros [= <-] (Hf & Hn & Hi & Ht) Hnew. apply Qltb_ge in Hq.
  unfold Sound. simpl. repeat split; auto.
  apply Forall_app. split; [exact Ht|].
  constructor; [|constructor]. split; assumption.
Qed.

Lemma Sound_postFundingRequest db user body env :
  Inv db -> Sound db -> Sound (snd (postFundingRequest db user body env)).
Proof.
  intros HI HS. unfold postFundingRequest.
  destruct (negb _); [exact HS|].
  destruct (_ || _); [exact HS|].
  destruct (_ || _); [exact HS|].
  destruct (find _ (videos db)) as [video|] eqn:Hv; [|exact HS].
  destruct (find _ (fundingRequests db)) eqn:Ha; [exact HS|].
  unfold FundingRequest_insert.
  destruct (FundingRequest.validate _) eqn:V; [|exact HS].
  pose proof (validate_bounds _ V) as (Vam & _ & Vroi & _).
  simpl in Vam, Vroi.
  apply Qle_bool_iff in Vam, Vroi.
  apply find_some in Hv as [Hvin Hvp].
  apply andb_true_iff in Hvp as [Hvc Hvf].
  destruct (seqb_spec (Video.cid video) (t_cid body)) as [Hvc'|]; [|discriminate].
  apply N.eqb_eq in Hvf.
  destruct HS as (Hf & Hn & Hi & Ht). destruct HI as (HIf & _).
  unfold Sound. simpl. repeat split; auto.
  - apply Forall_app. split; [exact Hf|].
    constructor; [|constructor]. apply frSound_pre_save.
    unfold frSound, pledged. simpl.
    repeat split; auto; try lra; [congruence|].
    exists video. auto.
  - rewrite map_app. simpl. apply NoDup_snoc; [exact Hn|].
    rewrite pre_save_cid. simpl. intros Hin.
    apply in_map_iff in Hin as (r & Hrc & Hrin).
    pose proof (find_none _ _ Ha r Hrin) as Hact.
    rewrite Forall_forall in HIf. destruct (HIf r Hrin) as [Hst _].
    unfold is_active_request in Hact. rewrite Hrc, Hvc' in Hact.
    rewrite seqb_refl in Hact.
    destruct Hst as [E|[E|E]]; rewrite E in Hact; discriminate.
  - eapply Forall_impl; [|exact Hi]. intros i (p & Hp & H).
    exists p. split; [now apply findById_app|exact H].
Qed.

Lemma Sound_postInvestment db user projectId a env :
  Sound db -> Sound (snd (postInvestment db user projectId a env)).
Proof.
  intros HS. unfold postInvestment.
  destruct (negb _); [exact HS|].
  destruct (Qle_bool a 0) eqn:Ha; [exact HS|].
  fold (pushedEntry user a env).
  destruct (findById FundingRequest._id projectId (fundingRequests db))
    as [p|] eqn:Hp.
  2:{ now rewrite (findByIdAndUpdate_missing _ _ _ _ Hp). }
  destruct (findByIdAndUpdate_found _ a (pushedEntry user a env) _ _ Hp)
    as (c' & E & Hc').
  rewrite E.
  destruct (findByIdAndUpdate_replaceOne _ _ _ _ _ _ _ Hp E) as [_ ->].
  pose proof (findById_key _ _ _ _ Hp) as Hid.
  apply Qle_bool_gt in Ha.
  assert (Sound (set_fundingRequests
                   (replaceOne FundingRequest._id
                      (invested a (pushedEntry user a env) p)
                      (fundingRequests db)) db)) as HS1.
  { apply Sound_replace with (r := p); auto.
    - simpl. now rewrite Hid.
    - apply frSound_invested; auto.
      destruct HS as (Hf & _). rewrite Forall_forall in Hf.
      apply Hf. now apply findById_In in Hp.
    - intros _. simpl. now destruct (FundingRequest.investors p). }
  destruct (find _ _) as [entry|]; [|exact HS1].
  unfold Investment_insert, Investment_pre_save_new.
  simpl. rewrite Hid, Hc'. simpl.
  match goal with
  | |- Sound (snd (match Transaction_insert ?t ?d with _ => _ end)) =>
      assert (Sound d) as HS2;
      [|destruct (Transaction_insert t d) as [err|db3] eqn:Htx]
  end.
  - destruct HS1 as (Hf & Hn & Hi & Ht). unfold Sound. simpl.
    repeat split; auto.
    + apply Forall_app. split; [exact Hi|].
      constructor; [|constructor].
      eexists. split; [simpl; exact Hc'|].
      split; [reflexivity|]. simpl.
      now destruct (FundingRequest.investors p).
    + eapply Forall_impl; [|exact Ht]. intros t. apply entrySound_more.
  - exact HS2.
  - assert (Sound db3).
    { apply (Sound_Transaction_insert _ _ _ Htx HS2).
      intros _. eexists. split; [apply in_or_app; right; left; reflexivity|].
      simpl. auto. }
    now destruct (formatInvestment _ _).
Qed.

(** What the transition step of the progress handler does to the record
    it is given and to the database. *)
Lemma applyProgress_effect db project inv env inv1 db1 b :
  Investment.status inv <> Investment.cancelled ->
  applyProgress db project inv env = inr (inv1, db1, b) ->
  (db1 = db
   \/ exists t db0 ns,
        Transaction_insert t db = inr db0
        /\ Transaction.type t = Transaction.payout
        /\ Transaction.userId t = Investment.investorWallet inv
        /\ db1 = notify ns db0)
  /\ Investment._id inv1 = Investment._id inv
  /\ Investment.investorWallet inv1 = Investment.investorWallet inv
  /\ Investment.projectId inv1 = Investment.projectId inv
  /\ Investment.snapshot inv1 = Investment.snapshot inv
  /\ Investment.amount inv1 = Investment.amount inv
  /\ Investment.investmentDate inv1 = Investment.investmentDate inv
  /\ Investment.txHash inv1 = Investment.txHash inv
  /\ Investment.progress inv1 = Investment.progress inv
  /\ (rank (Investment.status inv) <= rank (Investment.status inv1))%nat
  /\ (Investment.payoutNotified inv = true ->
      Investment.payoutNotified inv1 = true)
  /\ (Investment.status inv = Investment.harvested -> inv1 = inv).
Proof.
  intros Hnc H. unfold applyProgress in H.
  destruct inv as [id w pid snap amt st prog date h pa pd ph pn].
  unfold Investment.roi_of in H. simpl in H, Hnc.
  destruct (100 <=? prog)%Z; destruct st; try congruence; simpl in H.
  1,2: destruct pn; simpl in H;
    [ injection H as <- <- <-; simpl;
      repeat split; auto; try lia; discriminate
    | destruct snap as [s|]; simpl in H; [|discriminate];
      destruct (Transaction_insert _ db) as [e|db0] eqn:Htx; [discriminate|];
      injection H as <- <- <-; simpl;
      split; [right; do 3 eexists; repeat split; [exact Htx|reflexivity..]|];
      repeat split; auto; try lia; discriminate ].
  all: destruct (0 <? prog)%Z; destruct (prog =? 0)%Z; simpl in H;
    injection H as <- <- <-; simpl;
    repeat split; auto; try lia; discriminate.
Qed.

Lemma Transaction_insert_frame t db db' :
  Transaction_insert t db = inr db' ->
  transactions db' = transactions db ++ [t]
  /\ investments db' = investments db
  /\ fundingRequests db' = fundingRequests db
  /\ videos db' = videos db.
Proof.
  unfold Transaction_insert.
  destruct (Qltb _ 0); [discriminate|].
  destruct (hash_used _ _); [discriminate|].
  intros [= <-]. simpl. auto.
Qed.

Lemma FundingRequest_save_frame d db d' db' :
  FundingRequest_save d db = inr (d', db') ->
  transactions db' = transactions db /\ investments db' = investments db.
Proof.
  unfold FundingRequest_save.
  destruct (FundingRequest.validate d); [|discriminate].
  intros [= <- <-]. simpl. auto.
Qed.

Lemma Investment_save_frame d db db' :
  Investment_save d db = inr db' ->
  transactions db' = transactions db
  /\ investments db' = replaceOne Investment._id d (investments db)
  /\ fundingRequests db' = fundingRequests db
  /\ videos db' = videos db.
Proof.
  unfold Investment_save.
  destruct (Investment.validate d); [|discriminate].
  intros [= <-]. simpl. auto.
Qed.

Lemma addUpdateText_frame db project updateText env db' :
  addUpdateText db project updateText env = inr db' ->
  transactions db' = transactions db /\ investments db' = investments db.
Proof.
  unfold addUpdateText. intros H.
  destruct project as [p|]; [|injection H as <-; auto].
  destruct (nonblank updateText); [|injection H as <-; auto].
  destruct (findById _ _ _) as [fr|]; [|injection H as <-; auto].
  destruct (FundingRequest_save _ _) as [e|[saved db1]] eqn:Hs;
    [discriminate|].
  injection H as <-. simpl. now apply FundingRequest_save_frame in Hs.
Qed.

Lemma guard_not_cancelled (st : Investment.Status) (p : Z) :
  (Investment.Status_eqb st Investment.harvested
   || Investment.Status_eqb st Investment.cancelled)
  && ((p <? 100)%Z || Investment.Status_eqb st Investment.cancelled) = false ->
  st <> Investment.cancelled
  /\ (st = Investment.harvested -> (100 <= p)%Z).
Proof.
  destruct st; simpl; intros H; try rewrite orb_true_r in H;
    try discriminate H; split; try discriminate.
  intros _. rewrite orb_false_r in H. now apply Z.ltb_ge in H.
Qed.

Lemma applyProgress_evolves db project inv p env inv1 db1 b :
  (p <= 100)%Z ->
  Investment.status inv <> Investment.cancelled ->
  (Investment.status inv = Investment.harvested -> (100 <= p)%Z) ->
  applyProgress db project (Investment.set_progress p inv) env
  = inr (inv1, db1, b) ->
  evolves inv inv1.
Proof.
  intros Hle Hnc Hh Hap.
  apply applyProgress_effect in Hap; [|now destruct inv].
  destruct Hap as (_ & E1 & E2 & E3 & E4 & E5 & E6 & E7 & E8 & Hrk & Hpn & Hst).
  destruct inv as [id w pid snap amt st prog date h pa pd ph pn].
  simpl in *. unfold evolves. simpl.
  repeat split; auto; try congruence.
  intros -> ->. rewrite Hst by reflexivity.
  replace p with 100%Z by (specialize (Hh eq_refl); lia). reflexivity.
Qed.

(** The ledger and the records after a progress update: the ledger gains
    at most one entry, a payout; the records are as before, or the record
    addressed has been replaced by a later version of itself. *)
Lemma putProgress_try_effect db investmentId p updateText env :
  (p <= 100)%Z ->
  let db' := snd (putProgress_try db investmentId p updateText env) in
  (transactions db' = transactions db
   \/ exists t,
        transactions db' = transactions db ++ [t]
        /\ Transaction.type t = Transaction.payout)
  /\ (investments db' = investments db
      \/ exists inv inv1,
           findById Investment._id investmentId (investments db) = Some inv
           /\ evolves inv inv1
           /\ investments db'
              = replaceOne Investment._id inv1 (investments db)).
Proof.
  intros Hle. unfold putProgress_try.
  destruct (findById _ _ _) as [inv|] eqn:Hinv; [|simpl; auto].
  destruct (_ && _) eqn:Hg; [simpl; auto|].
  apply guard_not_cancelled in Hg as [Hnc Hh].
  destruct (applyProgress _ _ _ _) as [e|[[inv1 db1] triggered]] eqn:Hap;
    [simpl; auto|].
  pose proof (applyProgress_evolves _ _ _ _ _ _ _ _ Hle Hnc Hh Hap) as Hev.
  apply applyProgress_effect in Hap; [|now destruct inv].
  destruct Hap as (Hdb & _).
  assert (transactions db1 = transactions db
          \/ exists t, transactions db1 = transactions db ++ [t]
                       /\ Transaction.type t = Transaction.payout) as Ht1.
  { destruct Hdb as [->|(t & db0 & ns & Htx & Hty & _ & ->)]; [now left|].
    right. exists t. apply Transaction_insert_frame in Htx as (Htx & _).
    simpl. rewrite Htx. auto. }
  assert (investments db1 = investments db) as Hi1.
  { destruct Hdb as [->|(t & db0 & ns & Htx & _ & _ & ->)]; [reflexivity|].
    apply Transaction_insert_frame in Htx as (_ & Htx & _).
    simpl. exact Htx. }
  destruct (addUpdateText _ _ _ _) as [e|db2] eqn:Hup.
  { simpl. split; [exact Ht1|now left]. }
  apply addUpdateText_frame in Hup as [Ht2 Hi2].
  destruct (Investment_save inv1 db2) as [e|db3] eqn:Hsv.
  { simpl. rewrite Ht2, Hi2. split; [exact Ht1|now left]. }
  apply Investment_save_frame in Hsv as (Ht3 & Hi3 & _).
  assert (forall resp db4,
            transactions db4 = transactions db3 ->
            investments db4 = investments db3 ->
            (transactions (snd (resp : Response, db4)) = transactions db
             \/ exists t,
                  transactions (snd (resp, db4)) = transactions db ++ [t]
                  /\ Transaction.type t = Transaction.payout)
            /\ (investments (snd (resp, db4)) = investments db
                \/ exists inv0 inv2,
                     Some inv = Some inv0
                     /\ evolves inv0 inv2
                     /\ investments (snd (resp, db4))
                        = replaceOne Investment._id inv2 (investments db)))
    as Hend.
  { intros resp db4 Ht4 Hi4. simpl.
    rewrite Ht4, Hi4, Ht3, Hi3, Ht2, Hi2, Hi1. split; [exact Ht1|].
    right. now exists inv, inv1. }
  match goal with
  | |- context [match ?proj with Some _ => _ | None => _ end] =>
      destruct proj as [pr|]
  end.
  - destruct (_ && _).
    + destruct (checkProjectCompleted db3 _) as [e|db4] eqn:Hc.
      * exact (Hend _ _ eq_refl eq_refl).
      * apply checkProjectCompleted_frame in Hc as [Ht4 Hi4].
        destruct (formatInvestment _ _); exact (Hend _ _ Ht4 Hi4).
    + destruct (formatInvestment _ _); exact (Hend _ _ eq_refl eq_refl).
  - destruct (formatInvestment _ _); exact (Hend _ _ eq_refl eq_refl).
Qed.

Lemma applyProgress_Sound db project inv env inv1 db1 b :
  Investment.status inv <> Investment.cancelled ->
  applyProgress db project inv env = inr (inv1, db1, b) ->
  Sound db ->
  Sound db1 /\ investments db1 = investments db.
Proof.
  intros Hnc Hap HS.
  apply applyProgress_effect in Hap; [|exact Hnc].
  destruct Hap as ([->|(t & db0 & ns & Htx & Hty & _ & ->)] & _); [auto|].
  pose proof (Transaction_insert_frame _ _ _ Htx) as (_ & Hi & _).
  split; [|exact Hi].
  assert (Sound db0) as (H1 & H2 & H3 & H4).
  { apply (Sound_Transaction_insert _ _ _ Htx HS).
    intros E. rewrite Hty in E. discriminate. }
  unfold Sound. simpl. auto.
Qed.

Lemma addUpdateText_Sound db project updateText env db' :
  addUpdateText db project updateText env = inr db' ->
  Sound db -> Sound db'.
Proof.
  unfold addUpdateText. intros H HS.
  destruct project as [p|]; [|now injection H as <-].
  destruct (nonblank updateText); [|now injection H as <-].
  destruct (findById _ _ _) as [fr|] eqn:Hfr; [|now injection H as <-].
  destruct (FundingRequest_save _ _) as [e|[saved db1]] eqn:Hs;
    [discriminate|].
  injection H as <-.
  assert (Sound db1) as (H1 & H2 & H3 & H4).
  { eapply Sound_FundingRequest_save with (r := fr);
      [exact Hs| | | | | | | | |exact HS]; try reflexivity.
    simpl. rewrite (findById_key _ _ _ _ Hfr). exact Hfr. }
  unfold Sound. simpl. auto.
Qed.

Lemma checkProjectCompleted_Sound db projectId db' :
  checkProjectCompleted db projectId = inr db' ->
  Sound db -> Sound db'.
Proof.
  unfold checkProjectCompleted. intros H HS.
  destruct (_ && _); [|now injection H as <-].
  destruct (findById _ _ _) as [fr|] eqn:Hfr; [|now injection H as <-].
  destruct (negb _); [|now injection H as <-].
  destruct (FundingRequest_save _ _) as [e|[saved db1]] eqn:Hs;
    [discriminate|].
  injection H as <-.
  assert (Sound db1) as (H1 & H2 & H3 & H4).
  { eapply Sound_FundingRequest_save with (r := fr);
      [exact Hs| | | | | | | | |exact HS]; try reflexivity.
    simpl. rewrite (findById_key _ _ _ _ Hfr). exact Hfr. }
  unfold Sound. simpl. auto.
Qed.

Lemma Sound_Investment_save db inv inv1 db' :
  Investment_save inv1 db = inr db' ->
  Sound db ->
  findById Investment._id (Investment._id inv1) (investments db) = Some inv ->
  evolves inv inv1 ->
  Sound db'.
Proof.
  unfold Investment_save.
  destruct (Investment.validate inv1); [|discriminate].
  intros [= <-] (Hf & Hn & Hi & Ht) Hfind Hev.
  destruct Hev as (E1 & E2 & E3 & E4 & E5 & E6 & E7 & _).
  unfold Sound. simpl. repeat split; auto.
  - apply Forall_replaceOne; [|exact Hi].
    rewrite Forall_forall in Hi.
    destruct (Hi inv (findById_In _ _ _ _ Hfind)) as (p & Hp & Hs & Hne).
    exists p. rewrite E3, E4. auto.
  - eapply Forall_impl; [|exact Ht]. intros t (Ha & Hrec).
    split; [exact Ha|]. intros Hty.
    destruct (Hrec Hty) as (i & Hin & H1 & H2 & H3 & H4).
    destruct (replaceOne_In Investment._id inv1 i _ inv Hfind Hin)
      as [[-> Hin1]|Hin1].
    + exists inv1. rewrite E7, E5, E2, E3. auto.
    + exists i. auto.
Qed.

Lemma Sound_putProgress_try db investmentId p updateText env :
  (p <= 100)%Z ->
  Sound db ->
  Sound (snd (putProgress_try db investmentId p updateText env)).
Proof.
  intros Hle HS. unfold putProgress_try.
  destruct (findById _ _ _) as [inv|] eqn:Hinv; [|exact HS].
  destruct (_ && _) eqn:Hg; [exact HS|].
  apply guard_not_cancelled in Hg as [Hnc Hh].
  destruct (applyProgress _ _ _ _) as [e|[[inv1 db1] triggered]] eqn:Hap;
    [exact HS|].
  pose proof (applyProgress_evolves _ _ _ _ _ _ _ _ Hle Hnc Hh Hap) as Hev.
  apply applyProgress_Sound in Hap; [|now destruct inv|exact HS].
  destruct Hap as [HS1 Hi1].
  destruct (addUpdateText _ _ _ _) as [e|db2] eqn:Hup; [exact HS1|].
  pose proof (addUpdateText_Sound _ _ _ _ _ Hup HS1) as HS2.
  apply addUpdateText_frame in Hup as [_ Hi2].
  destruct (Investment_save inv1 db2) as [e|db3] eqn:Hsv; [exact HS2|].
  assert (Sound db3) as HS3.
  { apply (Sound_Investment_save _ inv _ _ Hsv HS2); [|exact Hev].
    rewrite Hi2, Hi1. destruct Hev as (-> & _).
    now rewrite (findById_key _ _ _ _ Hinv). }
  destruct (findById FundingRequest._id _ _) as [pr|].
  - destruct (_ && _).
    + destruct (checkProjectCompleted db3 _) as [e|db4] eqn:Hc; [exact HS3|].
      pose proof (checkProjectCompleted_Sound _ _ _ Hc HS3).
      now destruct (formatInvestment _ _).
    + now destruct (formatInvestment _ _).
  - now destruct (formatInvestment _ _).
Qed.

Lemma Sound_putProgress db user investmentId progress updateText env :
  Sound db ->
  Sound (snd (putProgress db user investmentId progress updateText env)).
Proof.
  intros HS. unfold putProgress.
  destruct (parseInt progress) as [p|]; [|exact HS].
  destruct (_ || _) eqn:Hv; [exact HS|].
  apply orb_false_iff in Hv as [_ Hle]. apply Z.ltb_ge in Hle.
  now apply Sound_putProgress_try.
Qed.

(** Every reachable state is sound. *)
Lemma Inv_Sound_handle db r :
  Inv db -> Sound db -> Sound (snd (handle db r)).
Proof.
  intros HI HS. destruct r; simpl.
  - now apply Sound_postFundingRequest.
  - now apply Sound_putFundingRequest.
  - now apply Sound_deleteFundingRequest.
  - now apply Sound_postInvestment.
  - now apply Sound_putProgress.
Qed.

Lemma Sound_run rs : forall db, Inv db -> Sound db -> Sound (snd (run db rs)).
Proof.
  induction rs as [|r rs IH]; intros db HI HS; simpl; [exact HS|].
  pose proof (Inv_handle db r HI) as H1.
  pose proof (Inv_Sound_handle db r HI HS) as H2.
  destruct (handle db r) as [resp db1]. simpl in H1, H2.
  specialize (IH db1 H1 H2).
  destruct (run db1 rs) as [resps db2]. exact IH.
Qed.

Lemma reachable_Sound db : reachable db -> Sound db.
Proof.
  intros (vs & rs & <-). apply Sound_run.
  - unfold Inv, emptyDB. simpl. repeat split; constructor.
  - unfold Sound, emptyDB. simpl. repeat split; constructor.
Qed.

(** ** Funded amounts in reachable states *)

(** X5.  In every reachable state the funded amount of a stored request
    is at least 0: it is 0 while the request has no contribution and
    positive once it has one. *)
Theorem funded_positive_iff_contribution db p :
  reachable db ->
  In p (fundingRequests db) ->
  (0 <= FundingRequest.fundedAmount p)%Q
  /\ (FundingRequest.investors p = [] -> FundingRequest.fundedAmount p == 0)
  /\ (FundingRequest.investors p <> [] ->
      (0 < FundingRequest.fundedAmount p)%Q).
Proof.
  intros R Hin. destruct (reachable_Sound db R) as (Hf & _).
  rewrite Forall_forall in Hf.
  destruct (Hf p Hin) as (H0 & Hz & Hp & _). auto.
Qed.

(** The scenario: the request after an investment of 60 and a save holds
    50, and the new request holds 0. *)
Lemma funded_positive_iff_contribution_witness :
  let p :=
    FundingRequest.set_status FundingRequest.funded
      (FundingRequest.set_fundedAmount 50
         (invested 60 (pushedEntry Scenario.alice 60 (Scenario.at_ 1000 "b"))
            Scenario.wheatRequest)) in
  (0 < FundingRequest.fundedAmount p)%Q
  /\ FundingRequest.fundedAmount Scenario.wheatRequest == 0.
Proof.
  intros p.
  assert (In p (fundingRequests Scenario.db_overfunded_saved)) as Hin
    by (vm_compute; left; reflexivity).
  assert (In Scenario.wheatRequest (fundingRequests Scenario.db_created))
    as Hin0 by (vm_compute; left; reflexivity).
  destruct (funded_positive_iff_contribution Scenario.db_overfunded_saved p
              (ex_intro _ Scenario.vs
                 (ex_intro _
                    [Scenario.create;
                     POST_investment Scenario.alice 0 60 (Scenario.at_ 1000 "b");
                     PUT_fundingRequest Scenario.farmerUser 0 None
                       (Some FundingRequest.funded) (Scenario.at_ 2000 "c")]
                    eq_refl)) Hin)
    as (_ & _ & Hpos).
  destruct (funded_positive_iff_contribution Scenario.db_created
              Scenario.wheatRequest
              (ex_intro _ Scenario.vs (ex_intro _ [Scenario.create] eq_refl))
              Hin0)
    as (_ & Hz & _).
  split; [apply Hpos; discriminate|apply Hz; reflexivity].
Defined.



(** ** Evidence *)





(** ** Records, their projects and the ledger *)



(** X10.  In every reachable state the hashes of the ledger are pairwise
    distinct, every entry has a non-negative amount, and every
    "investment" entry has an investment record with the same hash,
    amount, investor and project. *)
Theorem ledger_entries_sound db :
  reachable db ->
  NoDup (map Transaction.txHash (transactions db))
  /\ forall t,
       In t (transactions db) ->
       (0 <= Transaction.amount t)%Q
       /\ (Transaction.type t = Transaction.investment ->
           exists i,
             In i (investments db)
             /\ Investment.txHash i = Transaction.txHash t
             /\ Investment.amount i = Transaction.amount t
             /\ Investment.investorWallet i = Transaction.userId t
             /\ Transaction.projectId t = Some (Investment.projectId i)).
Proof.
  intros R. destruct (reachable_Inv db R) as (_ & _ & Hn).
  destruct (reachable_Sound db R) as (_ & _ & _ & Ht).
  split; [exact Hn|]. intros t Hin.
  rewrite Forall_forall in Ht. exact (Ht t Hin).
Qed.

Lemma ledger_entries_sound_witness :
  NoDup (map Transaction.txHash (transactions Scenario.db_harvested)).
Proof.
  exact (proj1 (ledger_entries_sound Scenario.db_harvested
                  (ex_intro _ Scenario.vs
                     (ex_intro _
                        [Scenario.create;
                         POST_investment Scenario.alice 0 50
                           (Scenario.at_ 1000 "b");
                         PUT_progress Scenario.alice 1 (js "100") None
                           (Scenario.at_ 2000 "c")] eq_refl)))).
Defined.



Lemma share_of_amount_bounds (a r : Q) :
  (0 <= a)%Q -> (0 <= r)%Q -> (r <= 100)%Q ->
  (0 <= a * (r / 100))%Q /\ (a * (r / 100) <= a)%Q.
Proof.
  intros Ha H0 H1.
  assert (0 <= r / 100)%Q as Hx.
  { unfold Qdiv. apply Qmult_le_0_compat; [exact H0|discriminate]. }
  assert (r / 100 <= 1)%Q as Hy.
  { apply Qle_shift_div_r; [reflexivity|lra]. }
  split.
  - apply Qmult_le_0_compat; assumption.
  - assert ((r / 100) * a <= 1 * a)%Q
      by (apply Qmult_le_compat_r; assumption).
    lra.
Qed.

(** X12.  In every reachable state a harvested record carries a payout
    amount, and that amount is at least 0 and at most the amount
    invested. *)
Theorem payout_within_investment db i :
  reachable db ->
  In i (investments db) ->
  Investment.status i = Investment.harvested ->
  exists payout,
    Investment.payoutAmount i = Some payout
    /\ (0 <= payout)%Q
    /\ (payout <= Investment.amount i)%Q.
Proof.
  intros R Hin Hh.
  destruct (reachable_Inv db R) as (_ & Hi & _).
  destruct (reachable_Sound db R) as (Hf & _ & Hr & _).
  rewrite Forall_forall in Hi, Hr, Hf.
  destruct (Hi i Hin) as ((roi & Hroi & Hroi0) & Ham & Hst).
  rewrite Hh in Hst.
  destruct Hst as (_ & h & roi' & _ & Hroi' & Hpa & _).
  rewrite Hroi in Hroi'. injection Hroi' as <-.
  destruct (Hr i Hin) as (p & Hp & Hs & _).
  destruct (Hf p (findById_In _ _ _ _ Hp)) as (_ & _ & _ & _ & Hle & _).
  assert (roi = FundingRequest.roi p) as ->.
  { unfold Investment.roi_of in Hroi. rewrite Hs in Hroi.
    simpl in Hroi. congruence. }
  apply Qle_bool_iff in Hroi0, Ham.
  destruct (share_of_amount_bounds _ _ Ham Hroi0 Hle) as [Hlo Hhi].
  eexists. split; [exact Hpa|]. split; assumption.
Qed.

(** The scenario: Alice's harvested record, 50 at 15%. *)
Lemma payout_within_investment_witness :
  exists payout,
    option_map Investment.payoutAmount
      (findById Investment._id 1 (investments Scenario.db_harvested))
    = Some (Some payout)
    /\ (0 <= payout)%Q /\ (payout <= 50)%Q.
Proof.
  pose (i := harvestedRecord
               (Investment.mk 1 2 0
                  (Some (snapshot_of
                           (invested 50
                              (pushedEntry Scenario.alice 50
                                 (Scenario.at_ 1000 "b"))
                              Scenario.wheatRequest)))
                  50 Investment.active 0 1000 (js "sim_invest_b") None None
                  None false)
               15 (Scenario.at_ 2000 "c")).
  assert (findById Investment._id 1%N (investments Scenario.db_harvested)
          = Some i) as Hf by (vm_compute; reflexivity).
  assert (In i (investments Scenario.db_harvested)) as Hin
    by (vm_compute; left; reflexivity).
  destruct (payout_within_investment Scenario.db_harvested i
              (ex_intro _ Scenario.vs
                 (ex_intro _
                    [Scenario.create;
                     POST_investment Scenario.alice 0 50 (Scenario.at_ 1000 "b");
                     PUT_progress Scenario.alice 1 (js "100") None
                       (Scenario.at_ 2000 "c")] eq_refl)) Hin eq_refl)
    as (payout & Hpa & Hlo & Hhi).
  exists payout. rewrite Hf. simpl. simpl in Hpa. rewrite Hpa.
  split; [reflexivity|]. split; [exact Hlo|exact Hhi].
Defined.

(** ** The ledger and the records over a run *)

Lemma evolves_refl i : evolves i i.
Proof. unfold evolves. repeat split; auto. Qed.

Lemma evolves_trans a b c : evolves a b -> evolves b c -> evolves a c.
Proof.
  intros (A1 & A2 & A3 & A4 & A5 & A6 & A7 & A8 & A9 & A10 & A11)
         (B1 & B2 & B3 & B4 & B5 & B6 & B7 & B8 & B9 & B10 & B11).
  unfold evolves. repeat split; try congruence; try lia; auto.
  - intros H. pose proof (A10 H) as E. subst b. now apply B10.
  - intros H H'. pose proof (A11 H H') as E. subst b. now apply B11.
Qed.

(** What one request does to the ledger and to the records. *)
Lemma handle_frame db r :
  let db' := snd (handle db r) in
  (transactions db' = transactions db
   \/ exists t, transactions db' = transactions db ++ [t])
  /\ (investments db' = investments db
      \/ (exists d, investments db' = investments db ++ [d])
      \/ exists id inv inv1,
           findById Investment._id id (investments db) = Some inv
           /\ evolves inv inv1
           /\ investments db' = replaceOne Investment._id inv1 (investments db)).
Proof.
  destruct r as [u b e|u i t s e|u i|u pid a e|u i p t e]; cbn [handle].
  - unfold postFundingRequest, FundingRequest_insert.
    destruct (negb _); [cbn [snd]; auto|].
    destruct (_ || _); [cbn [snd]; auto|].
    destruct (_ || _); [cbn [snd]; auto|].
    destruct (find _ (videos db)); [|cbn [snd]; auto].
    destruct (find _ (fundingRequests db)); [cbn [snd]; auto|].
    destruct (FundingRequest.validate _); [|cbn [snd caught]; auto].
    unfold notify, set_notifications, set_nextId, set_fundingRequests.
    cbn [snd transactions investments]. auto.
  - unfold putFundingRequest, FundingRequest_save.
    destruct (_ && _); [simpl; auto|].
    destruct (findById _ _ _); [|simpl; auto].
    destruct (negb _); [simpl; auto|].
    destruct (nonblank t); destruct s as [s|];
      try destruct (_ && _);
      try (cbn [snd transactions investments notify set_notifications];
           auto; fail);
      destruct (FundingRequest.validate _);
      try (cbn [snd caught transactions investments notify
                set_notifications]; auto; fail);
      destruct (chainedPopulate e);
      cbn [snd transactions investments notify set_notifications
           set_fundingRequests]; auto.
  - unfold deleteFundingRequest.
    destruct (findById _ _ _); [|simpl; auto].
    destruct (negb _); [simpl; auto|].
    destruct (Qltb _ _); simpl; auto.
  - unfold postInvestment.
    destruct (negb _); [simpl; auto|].
    destruct (Qle_bool a 0); [simpl; auto|].
    destruct (findByIdAndUpdate _ _ _ _) as [[x c']|]; [|simpl; auto].
    destruct (find _ _); [|simpl; auto].
    unfold Investment_insert, Transaction_insert.
    destruct (Qltb _ 0); [simpl; split; [auto|right; left; eauto]|].
    destruct (hash_used _ _); [simpl; split; [eauto|right; left; eauto]|].
    destruct (formatInvestment _ _); simpl; (split; [eauto|right; left; eauto]).
  - unfold putProgress.
    destruct (parseInt p) as [n|]; [|simpl; auto].
    destruct (_ || _) eqn:Hv; [simpl; auto|].
    apply orb_false_iff in Hv as [_ Hle]. apply Z.ltb_ge in Hle.
    destruct (putProgress_try_effect db i n t e Hle) as [Ht Hi].
    split.
    + destruct Ht as [Ht|(tx & Ht & _)]; [now left|right; now exists tx].
    + destruct Hi as [Hi|(inv & inv1 & H)]; [now left|].
      right; right. now exists i, inv, inv1.
Qed.

(** X13.  Over any sequence of requests the ledger only grows at its end
    (no entry is changed or removed), and so does the list of the records'
    ids (no record is removed or renumbered). *)
Theorem ledger_and_records_append_only rs db :
  (exists l,
     transactions (snd (run db rs)) = transactions db ++ l)
  /\ (exists l,
        map Investment._id (investments (snd (run db rs)))
        = map Investment._id (investments db) ++ l).
Proof.
  revert db. induction rs as [|r rs IH]; intros db; simpl.
  - split; exists []; now rewrite app_nil_r.
  - pose proof (handle_frame db r) as [Ht Hi].
    destruct (handle db r) as [resp db1]. simpl in Ht, Hi.
    specialize (IH db1). destruct (run db1 rs) as [resps db2]. simpl in *.
    destruct IH as [(l1 & E1) (l2 & E2)]. split.
    + destruct Ht as [Ht|(t & Ht)]; rewrite E1, Ht.
      * now exists l1.
      * exists (t :: l1). now rewrite <- app_assoc.
    + destruct Hi as [Hi|[(d & Hi)|(id & inv & inv1 & _ & _ & Hi)]];
        rewrite E2, Hi.
      * now exists l2.
      * exists (Investment._id d :: l2). now rewrite map_app, <- app_assoc.
      * exists l2. now rewrite map_key_replaceOne.
Qed.

Lemma run_evolves rs db id inv :
  findById Investment._id id (investments db) = Some inv ->
  exists inv',
    findById Investment._id id (investments (snd (run db rs))) = Some inv'
    /\ evolves inv inv'.
Proof.
  revert db inv. induction rs as [|r rs IH]; intros db inv Hf; simpl.
  - exists inv. split; [exact Hf|apply evolves_refl].
  - pose proof (handle_frame db r) as [_ Hi].
    destruct (handle db r) as [resp db1]. simpl in Hi.
    assert (exists inv1,
              findById Investment._id id (investments db1) = Some inv1
              /\ evolves inv inv1) as (inv1 & Hf1 & Hev1).
    { destruct Hi as [Hi|[(d & Hi)|(id' & inv0 & inv1 & Hf0 & Hev & Hi)]];
        rewrite Hi.
      - exists inv. split; [exact Hf|apply evolves_refl].
      - exists inv. split; [now apply findById_app|apply evolves_refl].
      - pose proof (findById_key _ _ _ _ Hf0) as Hk.
        destruct Hev as (E1 & Hrest).
        destruct (N.eq_dec id' id) as [->|Hne].
        + rewrite Hf in Hf0. injection Hf0 as <-.
          exists inv1. split; [|split; [exact E1|exact Hrest]].
          rewrite <- Hk, <- E1.
          apply findById_replaceOne with (x := inv). now rewrite E1, Hk.
        + exists inv. split; [|apply evolves_refl].
          rewrite findById_replaceOne_other; [exact Hf|]. congruence. }
    specialize (IH db1 inv1 Hf1).
    destruct (run db1 rs) as [resps db2]. simpl in *.
    destruct IH as (inv' & Hf' & Hev').
    exists inv'. split; [exact Hf'|]. now apply evolves_trans with inv1.
Qed.

(** X14.  A stored record and any later version of it, over any sequence
    of requests: the record is still in the store under its id; its
    investor, project, snapshot, amount, date and hash are unchanged; its
    status has not moved backwards in the order active, growing,
    harvested; and a [payoutNotified] flag that was set is still set. *)
Theorem record_evolves rs db id inv :
  findById Investment._id id (investments db) = Some inv ->
  exists inv',
    findById Investment._id id (investments (snd (run db rs))) = Some inv'
    /\ Investment.investorWallet inv' = Investment.investorWallet inv
    /\ Investment.projectId inv' = Investment.projectId inv
    /\ Investment.snapshot inv' = Investment.snapshot inv
    /\ Investment.amount inv' = Investment.amount inv
    /\ Investment.investmentDate inv' = Investment.investmentDate inv
    /\ Investment.txHash inv' = Investment.txHash inv
    /\ (rank (Investment.status inv) <= rank (Investment.status inv'))%nat
    /\ (Investment.payoutNotified inv = true ->
        Investment.payoutNotified inv' = true).
Proof.
  intros Hf. destruct (run_evolves rs db id inv Hf) as (inv' & Hf' & Hev).
  exists inv'. split; [exact Hf'|].
  destruct Hev as (_ & E2 & E3 & E4 & E5 & E6 & E7 & E8 & E9 & _).
  repeat split; assumption.
Qed.

(** X15.  A record that is [cancelled], or [harvested] with progress 100,
    is never changed again: after any sequence of requests the store holds
    it under its id exactly as it was. *)
Theorem terminal_record_immutable rs db id inv :
  findById Investment._id id (investments db) = Some inv ->
  Investment.status inv = Investment.cancelled
  \/ (Investment.status inv = Investment.harvested
      /\ Investment.progress inv = 100%Z) ->
  findById Investment._id id (investments (snd (run db rs))) = Some inv.
Proof.
  intros Hf Hterm.
  destruct (run_evolves rs db id inv Hf) as (inv' & Hf' & Hev).
  destruct Hev as (_ & _ & _ & _ & _ & _ & _ & _ & _ & Hc & Hh).
  destruct Hterm as [H|[H H']].
  - now rewrite <- (Hc H).
  - now rewrite <- (Hh H H').
Qed.

(** The scenario: Alice's record across the progress update to 100. *)
Lemma record_evolves_witness :
  exists inv',
    findById Investment._id 1
      (investments
         (snd (run Scenario.db_invested
                 [PUT_progress Scenario.alice 1 (js "100") None
                    (Scenario.at_ 2000 "c")]))) = Some inv'
    /\ Investment.amount inv' = 50
    /\ Investment.txHash inv' = js "sim_invest_b".
Proof.
  pose (inv := Investment.mk 1 2 0
                 (Some (snapshot_of
                          (invested 50
                             (pushedEntry Scenario.alice 50
                                (Scenario.at_ 1000 "b"))
                             Scenario.wheatRequest)))
                 50 Investment.active 0 1000 (js "sim_invest_b") None None None
                 false).
  assert (findById Investment._id 1%N (investments Scenario.db_invested)
          = Some inv) as Hf by (vm_compute; reflexivity).
  destruct (record_evolves
              [PUT_progress Scenario.alice 1 (js "100") None (Scenario.at_ 2000 "c")]
              Scenario.db_invested 1%N inv Hf)
    as (inv' & Hf' & Hev).
  exists inv'. split; [exact Hf'|].
  destruct Hev as (_ & _ & _ & Ha & _ & Hh & _).
  split; [exact Ha|exact Hh].
Defined.

(** The scenario: Alice's harvested record is sent 100 and then 40. *)
Lemma terminal_record_immutable_witness :
  findById Investment._id 1
    (investments
       (snd (run Scenario.db_harvested
               [PUT_progress Scenario.alice 1 (js "100") None (Scenario.at_ 3000 "d");
                PUT_progress Scenario.alice 1 (js "40") None (Scenario.at_ 4000 "e")])))
  = findById Investment._id 1 (investments Scenario.db_harvested).
Proof.
  pose (inv := harvestedRecord
                 (Investment.mk 1 2 0
                    (Some (snapshot_of
                             (invested 50
                                (pushedEntry Scenario.alice 50
                                   (Scenario.at_ 1000 "b"))
                                Scenario.wheatRequest)))
                    50 Investment.active 0 1000 (js "sim_invest_b") None None
                    None false)
                 15 (Scenario.at_ 2000 "c")).
  assert (findById Investment._id 1%N (investments Scenario.db_harvested)
          = Some inv) as Hf by (vm_compute; reflexivity).
  rewrite Hf.
  exact (terminal_record_immutable
           [PUT_progress Scenario.alice 1 (js "100") None (Scenario.at_ 3000 "d");
            PUT_progress Scenario.alice 1 (js "40") None (Scenario.at_ 4000 "e")]
           Scenario.db_harvested 1%N inv Hf
           (or_intror (conj eq_refl eq_refl))).
Defined.

(** ** A first investment *)

Lemma find_snoc {A} (f : A -> bool) (l : list A) (x : A) :
  (forall e, In e l -> f e = false) -> f x = true ->
  find f (l ++ [x]) = Some x.
Proof.
  intros Hl Hx. induction l as [|y l IH]; simpl.
  - now rewrite Hx.
  - rewrite (Hl y) by now left. apply IH. intros e He. apply Hl. now right.
Qed.

(** X16.  An investment by an investor, of a positive amount, in a stored
    project that holds no contribution of the same investor and amount
    from the last five seconds, looked up within five seconds and with a
    hash not yet in the ledger, makes every write.  It stores one record --
    [active], progress 0, with the project's terms as snapshot and the hash
    and date of the contribution just pushed -- and one "investment" ledger
    entry with that hash, amount, investor, project and date; it stores no
    notification.  The call is answered 500 all the same. *)
Theorem first_investment_recorded db user projectId a env p :
  User.role user = investor ->
  Qle_bool a 0 = false ->
  findById FundingRequest._id projectId (fundingRequests db) = Some p ->
  (forall e, In e (FundingRequest.investors p) ->
             is_pushed_entry user a env e = false) ->
  (later env - now env < 5000)%Z ->
  hash_used (generateSimulatedTxHash "sim_invest" env) (transactions db)
  = false ->
  exists db',
    postInvestment db user projectId a env = (ServerError, db')
    /\ investments db'
       = investments db
         ++ [Investment.mk (nextId db) (User._id user) projectId
               (Some (snapshot_of p)) a Investment.active 0 (now env)
               (generateSimulatedTxHash "sim_invest" env) None None None
               false]
    /\ transactions db'
       = transactions db
         ++ [Transaction.mk (User._id user)
               (generateSimulatedTxHash "sim_invest" env)
               Transaction.investment a (Some projectId) (now env)]
    /\ notifications db' = notifications db.
Proof.
  intros Hrole Ha Hp Hnone Hlate Hfresh.
  unfold postInvestment. rewrite Hrole, Ha.
  cbn [negb Role_eqb]. fold (pushedEntry user a env).
  destruct (findByIdAndUpdate_found _ a (pushedEntry user a env) _ _ Hp)
    as (c' & -> & Hc').
  assert (find (is_pushed_entry user a env)
            (FundingRequest.investors
               (invested a (pushedEntry user a env) p))
          = Some (pushedEntry user a env)) as ->.
  { simpl. apply find_snoc; [exact Hnone|].
    unfold is_pushed_entry, pushedEntry. simpl.
    rewrite N.eqb_refl.
    assert (Qeq_bool a a = true) as -> by (apply Qeq_bool_iff; reflexivity).
    simpl. now apply Z.ltb_lt. }
  pose proof (findById_key _ _ _ _ Hp) as Hid.
  unfold Investment_insert, Investment_pre_save_new, Transaction_insert.
  simpl. rewrite Hid, Hc'. simpl.
  assert (Qltb a 0 = false) as ->.
  { apply Qltb_ge. apply Qle_bool_gt in Ha. lra. }
  unfold pushedEntry in Hfresh |- *. simpl. rewrite Hfresh. simpl.
  rewrite formatInvestment_snapshot
    with (snap := snapshot_of (invested a (pushedEntry user a env) p))
    by reflexivity.
  eexists. repeat split.
Qed.

(** The scenario: Alice's investment of 50 in the new request. *)
Lemma first_investment_recorded_witness :
  List.length
    (investments
       (snd (postInvestment Scenario.db_created Scenario.alice 0 50
               (Scenario.at_ 1000 "b")))) = 1%nat.
Proof.
  destruct (first_investment_recorded Scenario.db_created Scenario.alice 0%N
              50 (Scenario.at_ 1000 "b") Scenario.wheatRequest
              eq_refl eq_refl eq_refl
              (fun e (H : In e []) => match H with end)
              eq_refl eq_refl) as (db' & E & Hi & _).
  rewrite E. simpl. now rewrite Hi.
Defined.

(** ** [POST /api/funding-requests] *)

Lemma pre_save_fresh d :
  (1 <= FundingRequest.amount d)%Q ->
  FundingRequest.fundedAmount d = 0 ->
  FundingRequest.pre_save d
  = FundingRequest.set_status FundingRequest.pending d.
Proof.
  destruct d as [id fw ti cr ac am me de tl ro sh ci fa st ca inv up].
  simpl. intros Ha ->. unfold FundingRequest.pre_save. simpl.
  assert (Qltb am 0 = false) as -> by (apply Qltb_ge; lra).
  simpl.
  assert (Qle_bool am 0 = false) as -> by (apply Qle_bool_gt; lra).
  reflexivity.
Qed.

(** X17.  A POST answered 201 comes from a farmer who owns a video with
    the given cid that no open request uses, and appends one request to the
    store and nothing else to the requests, records or ledger: owned by the
    caller, with the body's amount, ROI and video, status [pending], funded
    amount 0, no contributions and no updates.  Any other answer leaves the
    database as it was. *)
Theorem create_contract db user body env :
  let (resp, db') := postFundingRequest db user body env in
  (resp = Created ->
   User.role user = farmer
   /\ (exists v,
         In v (videos db) /\ Video.cid v = t_cid body
         /\ Video.farmerWallet v = User._id user)
   /\ find (is_active_request (t_cid body)) (fundingRequests db) = None
   /\ investments db' = investments db
   /\ transactions db' = transactions db
   /\ exists d,
        fundingRequests db' = fundingRequests db ++ [d]
        /\ FundingRequest._id d = nextId db
        /\ FundingRequest.farmerWallet d = User._id user
        /\ FundingRequest.cid d = t_cid body
        /\ FundingRequest.amount d = t_amount body
        /\ FundingRequest.roi d = t_roi body
        /\ FundingRequest.status d = FundingRequest.pending
        /\ FundingRequest.fundedAmount d = 0
        /\ FundingRequest.investors d = []
        /\ FundingRequest.updates d = [])
  /\ (resp <> Created -> db' = db).
Proof.
  unfold postFundingRequest.
  destruct (Role_eqb (User.role user) farmer) eqn:Hrole; cbn [negb];
    [|split; [discriminate|reflexivity]].
  destruct (_ || _); [split; [discriminate|reflexivity]|].
  destruct (_ || _); [split; [discriminate|reflexivity]|].
  destruct (find _ (videos db)) as [video|] eqn:Hv;
    [|split; [discriminate|reflexivity]].
  destruct (find _ (fundingRequests db)) eqn:Hact;
    [split; [discriminate|reflexivity]|].
  unfold FundingRequest_insert.
  destruct (FundingRequest.validate _) eqn:V;
    [|split; [discriminate|reflexivity]].
  pose proof (validate_bounds _ V) as (Vam & _).
  cbn [FundingRequest.amount] in Vam.
  apply Qle_bool_iff in Vam.
  apply find_some in Hv as [Hvin Hvp].
  apply andb_true_iff in Hvp as [Hvc Hvf].
  destruct (seqb_spec (Video.cid video) (t_cid body)) as [Hvc'|];
    [clear Hvc; rename Hvc' into Hvc|discriminate].
  apply N.eqb_eq in Hvf.
  rewrite pre_save_fresh by (cbn [FundingRequest.amount
                                   FundingRequest.fundedAmount]; auto).
  split; [|intros H; now contradiction H].
  intros _. split; [now destruct (User.role user)|].
  split; [now exists video|].
  split; [reflexivity|]. split; [reflexivity|]. split; [reflexivity|].
  eexists. split; [reflexivity|].
  cbn [FundingRequest.set_status FundingRequest._id FundingRequest.farmerWallet
       FundingRequest.cid FundingRequest.amount FundingRequest.roi
       FundingRequest.status FundingRequest.fundedAmount
       FundingRequest.investors FundingRequest.updates].
  repeat split. exact Hvc.
Qed.

(** ** A progress update that carries an update text *)

(** X18.  In a reachable state, a progress update to 100 with a non-blank
    update text, on a record that is not yet harvested and with a payout
    hash not yet in the ledger, is answered 400: the save of the project
    with the pushed update object is refused.  By then the payout entry has
    been written: the ledger has gained one "payout" entry for the
    investor, while the records and the requests are as before, so the
    record is still not harvested and its [payoutNotified] is still
    unset. *)
Theorem progress_with_text_keeps_payout db user investmentId inv text env :
  reachable db ->
  findById Investment._id investmentId (investments db) = Some inv ->
  Investment.status inv <> Investment.harvested ->
  nonblank (Some text) = true ->
  hash_used (generateSimulatedTxHash "sim_payout" env) (transactions db)
  = false ->
  exists t db',
    putProgress db user investmentId (js "100") (Some text) env
    = (BadRequest ValidationError, db')
    /\ transactions db' = transactions db ++ [t]
    /\ Transaction.type t = Transaction.payout
    /\ Transaction.userId t = Investment.investorWallet inv
    /\ Transaction.txHash t = generateSimulatedTxHash "sim_payout" env
    /\ Transaction.projectId t = Some (Investment.projectId inv)
    /\ Transaction.date t = now env
    /\ investments db' = investments db
    /\ fundingRequests db' = fundingRequests db.
Proof.
  intros R Hf Hs Hn Hfresh.
  pose proof (reachable_Inv db R) as HI.
  pose proof (invOK_found _ _ _ HI Hf) as ((roi & Hroi & Hroi0) & Hamt & Hst).
  destruct (reachable_Sound db R) as (_ & _ & HSr & _).
  rewrite Forall_forall in HSr.
  destruct (HSr inv (findById_In _ _ _ _ Hf)) as (p & Hp & Hsnap & _).
  pose proof (findById_key _ _ _ _ Hp) as Hpk.
  rewrite putProgress_100.
  unfold putProgress_try. rewrite Hf, Hp.
  destruct inv as [id w pid snap amt st prog date h pa pd ph pn].
  unfold Investment.roi_of in Hroi.
  cbn [Investment.snapshot Investment.amount Investment.status
       Investment.payoutNotified Investment.projectId] in *.
  subst snap. cbn [option_map] in Hroi. injection Hroi as <-.
  destruct st; try contradiction; try congruence; subst pn;
    cbn -[generateSimulatedTxHash Qmult Qdiv addUpdateText];
    unfold Transaction_insert;
    cbn -[generateSimulatedTxHash Qmult Qdiv addUpdateText];
    rewrite (payout_not_negative _ _ Hamt Hroi0), Hfresh;
    cbn -[generateSimulatedTxHash Qmult Qdiv addUpdateText];
    unfold addUpdateText; rewrite Hn;
    cbn [fundingRequests notify set_notifications set_transactions];
    rewrite Hpk, Hp;
    unfold FundingRequest_save;
    rewrite validate_pushed by reflexivity;
    cbn [caught];
    eexists; eexists; (split; [reflexivity|]); repeat split.
Qed.

(** The scenario: Alice's record is set to 100 with a note. *)
Lemma progress_with_text_keeps_payout_witness :
  let (resp, db') :=
    putProgress Scenario.db_invested Scenario.alice 1 (js "100")
      (Some (js "Harvest done")) (Scenario.at_ 2000 "c") in
  resp = BadRequest ValidationError
  /\ List.length (transactions db')
     = S (List.length (transactions Scenario.db_invested))
  /\ investments db' = investments Scenario.db_invested.
Proof.
  pose (inv := Investment.mk 1 2 0
                 (Some (snapshot_of
                          (invested 50
                             (pushedEntry Scenario.alice 50
                                (Scenario.at_ 1000 "b"))
                             Scenario.wheatRequest)))
                 50 Investment.active 0 1000 (js "sim_invest_b") None None None
                 false).
  assert (findById Investment._id 1%N (investments Scenario.db_invested)
          = Some inv) as Hf by (vm_compute; reflexivity).
  assert (Investment.status inv <> Investment.harvested) as Hs by discriminate.
  destruct (progress_with_text_keeps_payout Scenario.db_invested
              Scenario.alice 1%N inv (js "Harvest done")
              (Scenario.at_ 2000 "c")
              (ex_intro _ Scenario.vs
                 (ex_intro _ Scenario.funded_by_alice eq_refl))
              Hf Hs eq_refl eq_refl)
    as (t & db' & E & Ht & _ & _ & _ & _ & _ & Hi & _).
  rewrite E. split; [reflexivity|]. split; [|exact Hi].
  rewrite Ht, length_app. simpl. lia.
Defined.

(** ** [DELETE /api/funding-requests/:id] *)

(** X19.  A DELETE answered 200 was asked by the owner of a stored request
    whose funded amount is not positive; it removes that one request and
    leaves the records, the ledger and the notifications as they were.
    Any other answer leaves the database as it was. *)
Theorem delete_contract db user requestId :
  let (resp, db') := deleteFundingRequest db user requestId in
  (resp = Ok ->
   exists r,
     findById FundingRequest._id requestId (fundingRequests db) = Some r
     /\ FundingRequest.farmerWallet r = User._id user
     /\ (FundingRequest.fundedAmount r <= 0)%Q
     /\ fundingRequests db'
        = deleteOne FundingRequest._id requestId (fundingRequests db)
     /\ S (List.length (fundingRequests db'))
        = List.length (fundingRequests db)
     /\ investments db' = investments db
     /\ transactions db' = transactions db
     /\ notifications db' = notifications db)
  /\ (resp <> Ok -> db' = db).
Proof.
  unfold deleteFundingRequest.
  destruct (findById _ _ _) as [r|] eqn:Hr;
    [|split; [discriminate|reflexivity]].
  destruct (N.eqb_spec (FundingRequest.farmerWallet r) (User._id user))
    as [Ho|Ho]; cbn [negb]; [|split; [discriminate|reflexivity]].
  destruct (Qltb _ _) eqn:Hq; [split; [discriminate|reflexivity]|].
  apply Qltb_ge in Hq.
  split; [|intros H; now contradiction H].
  intros _. exists r. cbn [fundingRequests investments transactions notifications
                           set_fundingRequests].
  repeat split; auto. now apply length_deleteOne with (r := r).
Qed.

(** ** The stored status *)

(** X20.  In every reachable state the status of a stored request is
    [pending], [partially_funded] or [funded]: every write of a status goes
    through the save hook, which stores the status it derives. *)
Theorem stored_status_is_derived db p :
  reachable db ->
  In p (fundingRequests db) ->
  FundingRequest.status p = FundingRequest.funded
  \/ FundingRequest.status p = FundingRequest.partially_funded
  \/ FundingRequest.status p = FundingRequest.pending.
Proof.
  intros R Hin. destruct (reachable_Inv db R) as (Hf & _).
  rewrite Forall_forall in Hf. now destruct (Hf p Hin).
Qed.

(** The scenario: the request after Alice's record is harvested. *)
Lemma stored_status_is_derived_witness :
  let p :=
    FundingRequest.set_status FundingRequest.funded
      (invested 50 (pushedEntry Scenario.alice 50 (Scenario.at_ 1000 "b"))
         Scenario.wheatRequest) in
  FundingRequest.status p = FundingRequest.funded
  \/ FundingRequest.status p = FundingRequest.partially_funded
  \/ FundingRequest.status p = FundingRequest.pending.
Proof.
  intros p.
  assert (In p (fundingRequests Scenario.db_harvested)) as Hin
    by (vm_compute; left; reflexivity).
  exact (stored_status_is_derived Scenario.db_harvested p
           (ex_intro _ Scenario.vs
              (ex_intro _
                 [Scenario.create;
                  POST_investment Scenario.alice 0 50 (Scenario.at_ 1000 "b");
                  PUT_progress Scenario.alice 1 (js "100") None
                    (Scenario.at_ 2000 "c")] eq_refl)) Hin).
Defined.
